(** * Message-history extraction engine (imessage-read.py)

    A shallow embedding of [extract_text_from_attributed_body],
    [check_fda_access], [resolve_contact] and [get_messages] from
    [messaging-plugin/skills/messaging/scripts/platforms/imessage-read.py],
    together with the Python built-ins they call, and the properties the
    specification states about them. *)

From Stdlib Require Import ZArith NArith List Lia Bool Sorted.
From Stdlib Require Import Strings.String Strings.Ascii Strings.Byte.
From Stdlib Require Import Numbers.DecimalString.
From stdpp Require Import base option list gmap strings sorting.

Set Warnings "-register-all".
Local Open Scope N_scope.

(** ** Python values *)

(** A Python [bytes] object. *)
Abbreviation bytes := (list byte).

(** A Python [str]: its sequence of Unicode code points. *)
Abbreviation pystr := (list N).

Module Py.

(** [b"..."] for an ASCII literal. *)
Definition b (s : string) : bytes := list_byte_of_string s.

(** ["..."] for an ASCII literal. *)
Definition u (s : string) : pystr := map Byte.to_N (list_byte_of_string s).

(** [p == q] on sequences, given the equality test of the elements. *)
Fixpoint seq_eqb {A} (eqb : A -> A -> bool) (p q : list A) : bool :=
  match p, q with
  | [], [] => true
  | x :: p', y :: q' => eqb x y && seq_eqb eqb p' q'
  | _, _ => false
  end.

(** [s.startswith(p)]. *)
Fixpoint startswith {A} (eqb : A -> A -> bool) (p s : list A) : bool :=
  match p, s with
  | [], _ => true
  | x :: p', y :: s' => eqb x y && startswith eqb p' s'
  | _ :: _, [] => false
  end.

(** [p in s] for [bytes] and [str]: [p] occurs as a contiguous slice. *)
Fixpoint contains {A} (eqb : A -> A -> bool) (p s : list A) : bool :=
  startswith eqb p s ||
  match s with
  | [] => false
  | _ :: s' => contains eqb p s'
  end.

Definition bytes_startswith := startswith Byte.eqb.
Definition bytes_contains := contains Byte.eqb.
Definition str_eqb := seq_eqb N.eqb.
Definition str_startswith := startswith N.eqb.
Definition str_contains := contains N.eqb.

(** [bytes.lower()]: only the ASCII letters A-Z change. *)
Definition byte_lower (c : byte) : byte :=
  let n := Byte.to_N c in
  if (0x41 <=? n) && (n <=? 0x5A)
  then match Byte.of_N (n + 32) with Some c' => c' | None => c end
  else c.

Definition bytes_lower (s : bytes) : bytes := map byte_lower s.

(** The ASCII part of [str.lower()]. *)
Definition ascii_lower (s : pystr) : pystr :=
  map (fun n => if (0x41 <=? n) && (n <=? 0x5A) then n + 32 else n) s.

(** ** [bytes.decode('utf-8', errors='ignore')]

    CPython's decoder: an invalid start byte is skipped alone, an invalid
    continuation skips the bytes read so far and resumes at the offending
    byte, and a sequence cut off by the end of the input is dropped. *)

Definition is_continuation (n : N) : bool := (0x80 <=? n) && (n <? 0xC0).

Fixpoint utf8_ignore (s : list N) : pystr :=
  match s with
  | [] => []
  | ch :: r1 =>
    if ch <? 0x80 then ch :: utf8_ignore r1
    else if ch <? 0xC2 then utf8_ignore r1
    else if ch <? 0xE0 then
      match r1 with
      | [] => []
      | ch2 :: r2 =>
        if is_continuation ch2
        then (ch * 64 + ch2 - (0xC0 * 64 + 0x80)) :: utf8_ignore r2
        else utf8_ignore r1
      end
    else if ch <? 0xF0 then
      match r1 with
      | [] => []
      | ch2 :: r2 =>
        if negb (is_continuation ch2)
           || (if ch2 <? 0xA0 then ch =? 0xE0 else ch =? 0xED)
        then utf8_ignore r1
        else
          match r2 with
          | [] => []
          | ch3 :: r3 =>
            if is_continuation ch3
            then (ch * 4096 + ch2 * 64 + ch3
                  - (0xE0 * 4096 + 0x80 * 64 + 0x80)) :: utf8_ignore r3
            else utf8_ignore r2
          end
      end
    else if ch <? 0xF5 then
      match r1 with
      | [] => []
      | ch2 :: r2 =>
        if negb (is_continuation ch2)
           || (if ch2 <? 0x90 then ch =? 0xF0 else ch =? 0xF4)
        then utf8_ignore r1
        else
          match r2 with
          | [] => []
          | ch3 :: r3 =>
            if negb (is_continuation ch3) then utf8_ignore r2
            else
              match r3 with
              | [] => []
              | ch4 :: r4 =>
                if is_continuation ch4
                then (ch * 262144 + ch2 * 4096 + ch3 * 64 + ch4
                      - (0xF0 * 262144 + 0x80 * 4096 + 0x80 * 64 + 0x80))
                     :: utf8_ignore r4
                else utf8_ignore r3
              end
          end
      end
    else utf8_ignore r1
  end.

Definition decode_utf8_ignore (s : bytes) : pystr :=
  utf8_ignore (map Byte.to_N s).

(** ** [str.strip()] *)

(** [str.isspace()] of one code point. *)
Definition isspace (c : N) : bool :=
  ((0x09 <=? c) && (c <=? 0x0D)) || ((0x1C <=? c) && (c <=? 0x20))
  || (c =? 0x85) || (c =? 0xA0) || (c =? 0x1680)
  || ((0x2000 <=? c) && (c <=? 0x200A))
  || (c =? 0x2028) || (c =? 0x2029) || (c =? 0x202F)
  || (c =? 0x205F) || (c =? 0x3000).

Fixpoint lstrip (s : pystr) : pystr :=
  match s with
  | c :: s' => if isspace c then lstrip s' else s
  | [] => []
  end.

Definition rstrip (s : pystr) : pystr := rev (lstrip (rev s)).

Definition strip (s : pystr) : pystr := rstrip (lstrip s).

(** Truthiness of a [str] or [bytes] value. *)
Definition truthy {A} (s : list A) : bool :=
  match s with [] => false | _ => true end.

End Py.

(** ** The regular expressions of the extractor *)

Module Re.

(** The class [[\x20-\x7e\xc0-\xff]]. *)
Definition readable (c : byte) : bool :=
  let n := Byte.to_N c in
  ((0x20 <=? n) && (n <=? 0x7E)) || ((0xC0 <=? n) && (n <=? 0xFF)).

(** [.] without DOTALL: any byte but the newline. *)
Definition dot (c : byte) : bool := negb (Byte.to_N c =? 0x0A).

(** The greedy [[...]*] at the head of [s]: the longest readable prefix. *)
Fixpoint run (s : bytes) : bytes :=
  match s with
  | c :: s' => if readable c then c :: run s' else []
  | [] => []
  end.

(** [.{1,n}?([\x20-\x7e\xc0-\xff]{2,})] anchored at the head of [s]: the
    lazy quantifier takes one byte, tries the group, and only on failure
    takes one byte more; the greedy group, being last, takes the whole
    run. The result is [group(1)]. *)
Fixpoint lazy_dots_then_run (n : nat) (s : bytes) : option bytes :=
  match n, s with
  | S n', c :: s' =>
    if dot c then
      let g := run s' in
      if (2 <=? length g)%nat then Some g else lazy_dots_then_run n' s'
    else None
  | _, _ => None
  end.

Definition NSString : bytes := Py.b "NSString".

(** The pattern of Method 1 anchored at the head of [s]. *)
Definition match_marker_here (s : bytes) : option bytes :=
  if Py.bytes_startswith NSString s
  then lazy_dots_then_run 20 (drop (length NSString) s)
  else None.

(** [re.search(rb'NSString.{1,20}?([\x20-\x7e\xc0-\xff]{2,})', data)],
    reduced to [group(1)] of the leftmost match. *)
Fixpoint search_marker (s : bytes) : option bytes :=
  match match_marker_here s with
  | Some g => Some g
  | None =>
    match s with
    | [] => None
    | _ :: s' => search_marker s'
    end
  end.

(** [re.findall(rb'[\x20-\x7e\xc0-\xff]{n,}', data)] as one left-to-right
    pass; [cur] is the readable run read so far, in reverse. A run is
    reported when it ends, if it is long enough. *)
Definition emit (n : nat) (cur : bytes) : list bytes :=
  if (n <=? length cur)%nat then [rev cur] else [].

Fixpoint findall_from (n : nat) (cur : bytes) (s : bytes) : list bytes :=
  match s with
  | [] => emit n cur
  | c :: s' =>
    if readable c then findall_from n (c :: cur) s'
    else emit n cur ++ findall_from n [] s'
  end.

Definition findall_readable (n : nat) (s : bytes) : list bytes :=
  findall_from n [] s.

End Re.

(** ** The attributed-body extractor *)

(** What [plistlib.loads] returns: the values of a property list. *)
Inductive plist :=
| PStr (s : pystr)
| PBytes (s : bytes)
| PInt (z : Z)
| PBool (v : bool)
| PScalar                      (* float, datetime, UID *)
| PList (l : list plist)
| PDict (d : list (pystr * plist)).

Module Plist.

(** [k in d] and [d[k]] on the items of a dict. *)
Fixpoint dict_get (k : pystr) (d : list (pystr * plist)) : option plist :=
  match d with
  | [] => None
  | (k', v) :: d' => if Py.str_eqb k k' then Some v else dict_get k d'
  end.

(** [for obj in v]: the values iterated over, [None] for a [TypeError]. *)
Definition iter (v : plist) : option (list plist) :=
  match v with
  | PList l => Some l
  | PDict d => Some (map (fun kv => PStr (fst kv)) d)
  | PStr s => Some (map (fun c => PStr [c]) s)
  | PBytes s => Some (map (fun c => PInt (Z.of_N (Byte.to_N c))) s)
  | PInt _ | PBool _ | PScalar => None
  end.

End Plist.

Module Extractor.

(** The denylist of Method 2. *)
Definition metadata_tokens : list bytes :=
  [Py.b "nsstring"; Py.b "nsmutablestring"; Py.b "nsattributed";
   Py.b "streamtyped"].

(** [any(x in s.lower() for x in [...])]. *)
Definition is_metadata (s : bytes) : bool :=
  existsb (fun x => Py.bytes_contains x (Py.bytes_lower s)) metadata_tokens.

(** The run is, letter case apart, one of the tokens and nothing more. *)
Definition is_class_name (s : bytes) : bool :=
  existsb (Py.seq_eqb Byte.eqb (Py.bytes_lower s)) metadata_tokens.

(** [max(l, key=len)] of [x :: l]: the first of the longest elements. *)
Definition max_by_len (x : bytes) (l : list bytes) : bytes :=
  fold_left (fun best s => if (length best <? length s)%nat then s else best)
            l x.

(** The sentinels of Method 3. *)
Definition reserved_names : list pystr :=
  [Py.u "$null"; Py.u "NSString"; Py.u "NSMutableString"].

(** [isinstance(obj, str) and len(obj) > 1 and obj not in [...]]. *)
Definition is_payload_string (obj : plist) : option pystr :=
  match obj with
  | PStr s =>
    if (1 <? length s)%nat && negb (existsb (Py.str_eqb s) reserved_names)
    then Some s else None
  | _ => None
  end.

(** The [for obj in plist['$objects']] loop: the first payload string. *)
Fixpoint first_payload_string (objs : list plist) : option pystr :=
  match objs with
  | [] => None
  | obj :: objs' =>
    match is_payload_string obj with
    | Some s => Some s
    | None => first_payload_string objs'
    end
  end.

Section WithPlistlib.

(** [plistlib.loads]; [None] when it raises. *)
Variable plistlib_loads : bytes -> option plist.

(** [extract_text_from_attributed_body]. Every [return] of the source is
    a [Some] or [None] here; the [try] blocks only guard calls that are
    total in this model, except [plistlib.loads] and the iteration of
    [$objects], whose exceptions fall through to the final [return None]. *)
Definition extract_text_from_attributed_body (data : bytes) : option pystr :=
  if negb (Py.truthy data) then None
  else
    (* Method 1 *)
    match Re.search_marker data with
    | Some group1 => Some (Py.strip (Py.decode_utf8_ignore group1))
    | None =>
      (* Method 2 *)
      let readable_segments := Re.findall_readable 4 data in
      let method2 :=
        match List.filter (fun s => negb (is_metadata s)) readable_segments with
        | [] => None
        | s :: filtered' =>
          let longest := max_by_len s filtered' in
          let decoded := Py.strip (Py.decode_utf8_ignore longest) in
          if (0 <? length decoded)%nat then Some decoded else None
        end in
      match method2 with
      | Some decoded => Some decoded
      | None =>
        (* Method 3 *)
        if Py.bytes_startswith (Py.b "bplist") data then
          match plistlib_loads data with
          | Some (PDict d) =>
            match Plist.dict_get (Py.u "$objects") d with
            | Some objs =>
              match Plist.iter objs with
              | Some l => first_payload_string l
              | None => None
              end
            | None => None
            end
          | _ => None
          end
        else None
      end
    end.

(** *** The three strategies, one by one *)

(** The proximity regex (Method 1). *)
Definition proximity_regex (data : bytes) : option pystr :=
  option_map (fun g => Py.strip (Py.decode_utf8_ignore g))
             (Re.search_marker data).

(** The Readable-Segment Scanner (Method 2). *)
Definition readable_segment_scanner (data : bytes) : option pystr :=
  match List.filter (fun s => negb (is_metadata s))
                    (Re.findall_readable 4 data) with
  | [] => None
  | s :: rest =>
    let decoded := Py.strip (Py.decode_utf8_ignore (max_by_len s rest)) in
    if (0 <? length decoded)%nat then Some decoded else None
  end.

(** The Structured-Archive Decoder (Method 3), attempted on the container
    signature only. *)
Definition structured_archive_decoder (data : bytes) : option pystr :=
  if Py.bytes_startswith (Py.b "bplist") data then
    match plistlib_loads data with
    | Some (PDict d) =>
      objs ← Plist.dict_get (Py.u "$objects") d;
      l ← Plist.iter objs;
      first_payload_string l
    | _ => None
    end
  else None.

(** [a or-else b]: the first strategy that yields. *)
Definition or_else {A} (a b : option A) : option A :=
  match a with Some _ => a | None => b end.

(** The order of the specification (section 4.3): regex, Decoder, Scanner. *)
Definition extract_in_spec_order (data : bytes) : option pystr :=
  or_else (proximity_regex data)
          (or_else (structured_archive_decoder data)
                   (readable_segment_scanner data)).

(** The order of the source: regex, Scanner, Decoder. *)
Definition extract_in_source_order (data : bytes) : option pystr :=
  or_else (proximity_regex data)
          (or_else (readable_segment_scanner data)
                   (structured_archive_decoder data)).

End WithPlistlib.

End Extractor.

(** ** The identifier resolver *)

Module Resolver.

(** One entry of [contacts.yaml]: a dict with the optional keys [name],
    [nicknames] and [platforms]; [platforms] maps a platform name to the
    dict of its addresses. *)
Record contact := {
  name : option pystr;
  nicknames : option (list pystr);
  platforms : option (gmap string (gmap string pystr));
}.

(** [a or b] on optional strings. *)
Definition py_or (a b : option pystr) : option pystr :=
  match a with
  | Some s => if Py.truthy s then a else b
  | None => b
  end.

(** [contact.get("platforms", {}).get("imessage", {})]. *)
Definition imessage_info (c : contact) : gmap string pystr :=
  default ∅ (default ∅ (platforms c) !! "imessage"%string).

(** [phone = imessage_info.get("phone") or imessage_info.get("email")],
    kept when [if phone:] passes. *)
Definition imessage_address (c : contact) : option pystr :=
  match py_or (imessage_info c !! "phone"%string)
              (imessage_info c !! "email"%string) with
  | Some phone => if Py.truthy phone then Some phone else None
  | None => None
  end.

Section WithLower.

(** [str.lower]. *)
Variable lower : pystr -> pystr.

(** The name test of one entry: [Some] is a [return]. *)
Definition check_name (identifier_lower : pystr) (c : contact)
  : option (pystr * pystr) :=
  let name := default [] (name c) in
  if Py.str_eqb identifier_lower (lower name) then
    match imessage_address c with
    | Some phone => Some (name, phone)
    | None => None
    end
  else None.

(** The [for nick in nicknames] loop of one entry. *)
Fixpoint check_nicknames (identifier_lower : pystr) (c : contact)
         (nicks : list pystr) : option (pystr * pystr) :=
  match nicks with
  | [] => None
  | nick :: nicks' =>
    if Py.str_eqb identifier_lower (lower nick) then
      match imessage_address c with
      | Some phone => Some (default nick (name c), phone)
      | None => check_nicknames identifier_lower c nicks'
      end
    else check_nicknames identifier_lower c nicks'
  end.

(** The [for contact in contacts] loop. *)
Fixpoint search_contacts (identifier_lower : pystr) (contacts : list contact)
  : option (pystr * pystr) :=
  match contacts with
  | [] => None
  | c :: contacts' =>
    match check_name identifier_lower c with
    | Some r => Some r
    | None =>
      match check_nicknames identifier_lower c (default [] (nicknames c)) with
      | Some r => Some r
      | None => search_contacts identifier_lower contacts'
      end
    end
  end.

(** [resolve_contact]. *)
Definition resolve_contact (identifier : pystr) (contacts : list contact)
  : pystr * pystr :=
  if Py.str_startswith (Py.u "+") identifier
     || Py.str_contains (Py.u "@") identifier
  then (identifier, identifier)
  else
    match search_contacts (lower identifier) contacts with
    | Some r => r
    | None => (identifier, identifier)
    end.

(** *** The resolver of the specification (section 4.4)

    Rule 2 over every entry, then Rule 3 over every entry. *)

Fixpoint rule2_all (identifier_lower : pystr) (contacts : list contact)
  : option (pystr * pystr) :=
  match contacts with
  | [] => None
  | c :: contacts' =>
    match check_name identifier_lower c with
    | Some r => Some r
    | None => rule2_all identifier_lower contacts'
    end
  end.

Fixpoint rule3_all (identifier_lower : pystr) (contacts : list contact)
  : option (pystr * pystr) :=
  match contacts with
  | [] => None
  | c :: contacts' =>
    match check_nicknames identifier_lower c (default [] (nicknames c)) with
    | Some r => Some r
    | None => rule3_all identifier_lower contacts'
    end
  end.

Definition resolve_names_first (identifier : pystr) (contacts : list contact)
  : pystr * pystr :=
  if Py.str_startswith (Py.u "+") identifier
     || Py.str_contains (Py.u "@") identifier
  then (identifier, identifier)
  else
    match rule2_all (lower identifier) contacts with
    | Some r => r
    | None =>
      match rule3_all (lower identifier) contacts with
      | Some r => r
      | None => (identifier, identifier)
      end
    end.

(** An entry answers to the identifier: by its name or by a nickname. *)
Definition answers_to (identifier_lower : pystr) (c : contact) : bool :=
  Py.str_eqb identifier_lower (lower (default [] (name c)))
  || existsb (fun nick => Py.str_eqb identifier_lower (lower nick))
             (default [] (nicknames c)).

(** An entry that says nothing: it does not answer to the identifier, or
    it has no iMessage address. *)
Definition silent (identifier_lower : pystr) (c : contact) : Prop :=
  answers_to identifier_lower c = true -> imessage_address c = None.

End WithLower.

End Resolver.

(** ** The datastore and the connection *)

Module Sqlite.

(** The exceptions that matter to the callers. Of those of [sqlite3],
    [OperationalError] is a [DatabaseError] and [InterfaceError] is not;
    [PermissionError] is what the file system raises. *)
Inductive exn :=
  OperationalError | DatabaseError | InterfaceError | PermissionError.

(** [except (sqlite3.OperationalError, sqlite3.DatabaseError)]. *)
Definition is_database_error (e : exn) : bool :=
  match e with
  | OperationalError | DatabaseError => true
  | InterfaceError | PermissionError => false
  end.

(** One row of [message m LEFT JOIN handle h ON m.handle_id = h.ROWID]. *)
Record message_row := {
  m_text : option pystr;
  m_attributedBody : option bytes;
  m_is_from_me : Z;
  m_date : Z;
  h_id : option pystr;
}.

(** The store file as the calls see it: whether looking for it raises,
    whether it is there, whether [connect] or [execute] raise, whether the
    cursor raises after having yielded some rows, and the joined table. *)
Record store := {
  exists_error : option exn;
  file_exists : bool;
  connect_error : option exn;
  execute_error : option exn;
  fetch_error : option (nat * exn);
  table : list message_row;
}.

(** What happens to connections, oldest first. *)
Inductive event := Opened | Closed.

Definition trace := list event.

(** The connections still open at the end of a trace. *)
Fixpoint still_open (n : nat) (tr : trace) : nat :=
  match tr with
  | [] => n
  | Opened :: tr' => still_open (S n) tr'
  | Closed :: tr' => still_open (pred n) tr'
  end.

Definition count_opened (tr : trace) : nat :=
  length (List.filter (fun e => match e with Opened => true | _ => false end) tr).

(** *** Computations that raise and that open and close connections *)

Inductive result (A : Type) := Return (a : A) | Raise (e : exn).
Arguments Return {A} a.
Arguments Raise {A} e.

Definition M (A : Type) : Type := trace -> result A * trace.

Definition ret {A} (a : A) : M A := fun tr => (Return a, tr).

Definition raise {A} (e : exn) : M A := fun tr => (Raise e, tr).

Definition bind {A B} (m : M A) (k : A -> M B) : M B :=
  fun tr =>
    match m tr with
    | (Return a, tr') => k a tr'
    | (Raise e, tr') => (Raise e, tr')
    end.

(** [try: m except <caught>: handler]. *)
Definition try_except {A} (m : M A) (caught : exn -> bool) (handler : M A)
  : M A :=
  fun tr =>
    match m tr with
    | (Raise e, tr') => if caught e then handler tr' else (Raise e, tr')
    | r => r
    end.

Definition log (e : event) : M unit := fun tr => (Return tt, tr ++ [e]).

Definition lift {A} (r : result A) : M A := fun tr => (r, tr).

Declare Scope py_scope.
Delimit Scope py_scope with py.
Notation "'let*' x ':=' m 'in' k" := (bind m (fun x => k))
  (at level 10, x name, m at level 100, k at level 200, only parsing)
  : py_scope.
Notation "m '>>' k" := (bind m (fun _ => k))
  (at level 100, k at level 200, right associativity, only parsing)
  : py_scope.

(** [CHAT_DB.exists()]: [pathlib] lets through what [stat] raises, other
    than for a path that is not there. *)
Definition path_exists (st : store) : M bool :=
  match exists_error st with
  | Some e => raise e
  | None => ret (file_exists st)
  end.

(** [sqlite3.connect(f"file:{CHAT_DB}?mode=ro", uri=True)]. *)
Definition connect (st : store) : M unit :=
  match connect_error st with
  | Some e => raise e
  | None => log Opened
  end.

(** [conn.close()]. *)
Definition close : M unit := log Closed.

(** A row of the result set of [get_messages]. *)
Record row := {
  text : option pystr;
  attributedBody : option bytes;
  is_from_me : Z;
  formatted_date : option pystr;
  raw_date : Z;
  contact_id : pystr;
}.

(** A cursor: the rows it yields, then the exception it raises, if any. *)
Record cursor := {
  rows : list row;
  failure : option exn;
}.

(** Most recent first, on the rows of a result set. *)
Definition newest_first (a b : row) : Prop := (raw_date b <= raw_date a)%Z.

(** [ORDER BY m.date DESC]. *)
Definition date_desc (a b : message_row) : Prop := (m_date b <= m_date a)%Z.

#[global] Instance date_desc_dec : RelDecision date_desc.
Proof. intros a b. unfold date_desc. apply _. Defined.

(** [LIMIT n]: a negative [n] is no limit. *)
Definition sql_limit {A} (n : Z) (l : list A) : list A :=
  if (n <? 0)%Z then l else take (Z.to_nat n) l.

(** [WHERE h.id = ?], and [AND m.date >= ?] when there is a bound. *)
Definition where_clause (contact_id : pystr) (since : option Z)
           (m : message_row) : bool :=
  match h_id m with
  | Some id => Py.str_eqb id contact_id
  | None => false
  end
  && match since with
     | Some t => (t <=? m_date m)%Z
     | None => true
     end.

Definition APPLE_EPOCH_OFFSET : Z := 978307200.

Section WithClock.

(** SQLite's [datetime(t, 'unixepoch', 'localtime')]. *)
Variable sql_datetime : Z -> option pystr.

(** The columns of the [SELECT]. *)
Definition select_columns (m : message_row) : row :=
  {| text := m_text m;
     attributedBody := m_attributedBody m;
     is_from_me := m_is_from_me m;
     formatted_date :=
       sql_datetime (Z.quot (m_date m) 1000000000 + APPLE_EPOCH_OFFSET)%Z;
     raw_date := m_date m;
     contact_id := default [] (h_id m) |}.

(** The result set of the query of [get_messages]. SQLite leaves open
    the order of rows of equal date; the sort fixes one, and the
    properties that name the result set hold for it only as a sorted
    arrangement of the rows that pass the [WHERE] clause. *)
Definition select_messages (tbl : list message_row) (contact_id : pystr)
           (since : option Z) (limit : Z) : list row :=
  map select_columns
      (sql_limit limit
         (merge_sort date_desc
            (List.filter (where_clause contact_id since) tbl))).

(** The cursor over the result set: it raises after [n] rows when the
    store says so. *)
Definition open_cursor (st : store) (contact_id : pystr)
           (since : option Z) (limit : Z) : cursor :=
  let result_set := select_messages (table st) contact_id since limit in
  match fetch_error st with
  | Some (n, e) => {| rows := take n result_set; failure := Some e |}
  | None => {| rows := result_set; failure := None |}
  end.

(** [conn.execute(query, params)] of [get_messages]. *)
Definition execute_query (st : store) (contact_id : pystr)
           (since : option Z) (limit : Z) : M cursor :=
  match execute_error st with
  | Some e => raise e
  | None => ret (open_cursor st contact_id since limit)
  end.

End WithClock.

(** [conn.execute("SELECT 1 FROM message LIMIT 1")]. A store has one
    failure of [execute], met by the probe and by the query alike: a store
    on which the probe passes and the query raises is not among them. *)
Definition execute_probe (st : store) : M unit :=
  match execute_error st with
  | Some e => raise e
  | None => ret tt
  end.

End Sqlite.

(** ** The access guard and the history query engine *)

Module Engine.

Import Sqlite.
Local Open Scope py_scope.

(** One element of the list [get_messages] returns. *)
Record message := {
  msg_text : pystr;
  msg_is_from_me : bool;
  msg_date : option pystr;
  msg_contact : pystr;
}.

(** [check_fda_access]. *)
Definition check_fda_access (st : store) : M bool :=
  let* there := path_exists st in
  if negb there then ret false
  else
    try_except
      (connect st >>
       execute_probe st >>
       close >>
       ret true)
      is_database_error
      (ret false).

(** [not text or text.strip() == '']. *)
Definition blank (text : option pystr) : bool :=
  match text with
  | None => true
  | Some s => negb (Py.truthy s) || Py.str_eqb (Py.strip s) []
  end.

Section WithEnvironment.

(** [str.lower]. *)
Variable lower : pystr -> pystr.

(** [plistlib.loads]; [None] when it raises. *)
Variable plistlib_loads : bytes -> option plist.

(** SQLite's [datetime(t, 'unixepoch', 'localtime')]. *)
Variable sql_datetime : Z -> option pystr.

(** The values of [datetime.datetime]. *)
Variable datetime : Type.

(** [datetime.strptime(since, "%Y-%m-%d")]; [None] when it raises
    [ValueError]. *)
Variable strptime : pystr -> option datetime.

(** [since_date.timestamp()]: the seconds since the Unix epoch of local
    midnight, a whole number. *)
Variable timestamp : datetime -> Z.

(** The text of a row: the [text] column, or else what the extractor
    finds in [attributedBody]. *)
Definition resolve_text (r : row) : option pystr :=
  if blank (text r) then
    match attributedBody r with
    | Some attributed_body =>
      if Py.truthy attributed_body
      then Extractor.extract_text_from_attributed_body
             plistlib_loads attributed_body
      else text r
    | None => text r
    end
  else text r.

(** [keyword and keyword.lower() not in text.lower()]. *)
Definition keyword_rejects (keyword : option pystr) (text : pystr) : bool :=
  match keyword with
  | Some k => Py.truthy k && negb (Py.str_contains (lower k) (lower text))
  | None => false
  end.

Definition make_message (r : row) (text : pystr) : message :=
  {| msg_text := text;
     msg_is_from_me := negb (is_from_me r =? 0)%Z;
     msg_date := formatted_date r;
     msg_contact := contact_id r |}.

(** The message [m] is the one the loop builds from the row [r]: its text
    is the resolved text of the row, which is not blank. *)
Definition built_from (r : row) (m : message) : Prop :=
  resolve_text r = Some (msg_text m)
  /\ blank (Some (msg_text m)) = false
  /\ m = make_message r (msg_text m).

(** The [for row in cursor] loop; [messages] is the list built so far. *)
Fixpoint row_loop (limit : Z) (keyword : option pystr)
         (rs : list row) (failure : option exn) (messages : list message)
  : result (list message) :=
  match rs with
  | [] =>
    match failure with
    | Some e => Raise e
    | None => Return messages
    end
  | r :: rs' =>
    match resolve_text r with
    | Some text =>
      if blank (Some text) then row_loop limit keyword rs' failure messages
      else if keyword_rejects keyword text
      then row_loop limit keyword rs' failure messages
      else
        let messages := messages ++ [make_message r text] in
        if (limit <=? Z.of_nat (length messages))%Z then Return messages
        else row_loop limit keyword rs' failure messages
    | None => row_loop limit keyword rs' failure messages
    end
  end.

(** The lower bound on [m.date] that the [since] argument adds to the
    query, if any. *)
Definition since_bound (since : option pystr) : option Z :=
  match since with
  | Some s =>
    if Py.truthy s then
      match strptime s with
      | Some since_date =>
        Some ((timestamp since_date - APPLE_EPOCH_OFFSET) * 1000000000)%Z
      | None => None
      end
    else None
  | None => None
  end.

(** [get_messages]. *)
Definition get_messages (st : store) (contact_id : pystr) (limit : Z)
           (keyword since : option pystr) : M (list message) :=
  connect st >>
  let* cur := execute_query sql_datetime st contact_id
                            (since_bound since) (limit * 2) in
  let* messages := lift (row_loop limit keyword (rows cur) (failure cur) []) in
  close >>
  ret messages.

End WithEnvironment.

End Engine.

(** ** Concrete inputs *)

Module Samples.

(** A binary property list holding [{'$objects': ['Hello']}]: the
    header, the dict, its key, the array, the string, the offset table and
    the 32-byte trailer. *)
Definition hello_archive : bytes :=
  Py.b "bplist00" ++ [xd1; x01; x02]
  ++ [x58] ++ Py.b "$objects"
  ++ [xa1; x03]
  ++ [x55] ++ Py.b "Hello"
  ++ [x08; x0b; x14; x16]
  ++ [x00; x00; x00; x00; x00; x00; x01; x01]
  ++ [x00; x00; x00; x00; x00; x00; x00; x04]
  ++ [x00; x00; x00; x00; x00; x00; x00; x00]
  ++ [x00; x00; x00; x00; x00; x00; x00; x1c].

(** [plistlib.loads] on [hello_archive]; no other value is asked of it. *)
Definition loads_hello (data : bytes) : option plist :=
  if Py.seq_eqb Byte.eqb data hello_archive
  then Some (PDict [(Py.u "$objects", PList [PStr (Py.u "Hello")])])
  else None.

(** A decoder that always raises. *)
Definition loads_fails (data : bytes) : option plist := None.

(** The string-class marker followed by two spaces. *)
Definition marker_then_blanks : bytes :=
  Py.b "NSString" ++ [x01] ++ Py.b "  ".

(** The same, followed by a readable run that the Scanner would find. *)
Definition marker_blanks_then_text : bytes :=
  Py.b "NSString" ++ [x01] ++ Py.b "  " ++ [x00] ++ Py.b "Hello world".

(** Two class names and nothing else. *)
Definition two_class_names : bytes :=
  Py.b "NSString" ++ [x01] ++ Py.b "NSMutableString".

(** A typedstream payload as the Messages store holds them. *)
Definition typedstream_hello : bytes :=
  [x04; x0b] ++ Py.b "streamtyped" ++ [x81; xe8; x03; x84; x01]
  ++ Py.b "@" ++ [x84; x84; x84; x12] ++ Py.b "NSAttributedString"
  ++ [x00; x84; x84; x08] ++ Py.b "NSObject" ++ [x00; x85; x92; x84; x84; x84; x08]
  ++ Py.b "NSString" ++ [x01; x94; x84; x01] ++ Py.b "+" ++ [x05]
  ++ Py.b "Hello" ++ [x86].

(** A directory in which "Sam" is a nickname of the first entry and the
    name of the second. *)
Definition robert : Resolver.contact :=
  {| Resolver.name := Some (Py.u "Robert");
     Resolver.nicknames := Some [Py.u "Bob"; Py.u "Sam"];
     Resolver.platforms :=
       Some {[ "imessage"%string :=
                 {[ "phone"%string := Py.u "+61400000001" ]} ]} |}.

Definition sam : Resolver.contact :=
  {| Resolver.name := Some (Py.u "Sam");
     Resolver.nicknames := None;
     Resolver.platforms :=
       Some {[ "imessage"%string :=
                 {[ "email"%string := Py.u "sam@example.org" ]} ]} |}.

(** An entry named "Sam" that has no iMessage address. *)
Definition sam_no_address : Resolver.contact :=
  {| Resolver.name := Some (Py.u "Sam");
     Resolver.nicknames := Some [Py.u "Sammy"];
     Resolver.platforms :=
       Some {[ "signal"%string :=
                 {[ "phone"%string := Py.u "+61400000003" ]} ]} |}.

(** A typedstream payload holding "see you then". *)
Definition typedstream_see_you : bytes :=
  [x04; x0b] ++ Py.b "streamtyped" ++ [x81; xe8; x03; x84; x01]
  ++ Py.b "@" ++ [x84; x84; x84; x12] ++ Py.b "NSAttributedString"
  ++ [x00; x84; x84; x08] ++ Py.b "NSObject" ++ [x00; x85; x92; x84; x84; x84; x08]
  ++ Py.b "NSString" ++ [x01; x94; x84; x01] ++ Py.b "+" ++ [x0c]
  ++ Py.b "see you then" ++ [x86].

(** The store of the end-to-end scenarios: three rows for one address,
    the second with its text in the binary payload, and a row of another
    conversation. *)
Definition scenario_table : list Sqlite.message_row :=
  [ {| Sqlite.m_text := Some (Py.u "old msg");
       Sqlite.m_attributedBody := None;
       Sqlite.m_is_from_me := 0;
       Sqlite.m_date := 788000000000000000;
       Sqlite.h_id := Some (Py.u "+61400000000") |};
    {| Sqlite.m_text := Some (Py.u "other chat");
       Sqlite.m_attributedBody := None;
       Sqlite.m_is_from_me := 1;
       Sqlite.m_date := 788000500000000000;
       Sqlite.h_id := Some (Py.u "+61400000009") |};
    {| Sqlite.m_text := Some (Py.u "call me");
       Sqlite.m_attributedBody := None;
       Sqlite.m_is_from_me := 1;
       Sqlite.m_date := 788002000000000000;
       Sqlite.h_id := Some (Py.u "+61400000000") |};
    {| Sqlite.m_text := None;
       Sqlite.m_attributedBody := Some typedstream_see_you;
       Sqlite.m_is_from_me := 0;
       Sqlite.m_date := 788001000000000000;
       Sqlite.h_id := Some (Py.u "+61400000000") |} ]%Z.

Definition scenario_store : Sqlite.store :=
  {| Sqlite.exists_error := None;
     Sqlite.file_exists := true;
     Sqlite.connect_error := None;
     Sqlite.execute_error := None;
     Sqlite.fetch_error := None;
     Sqlite.table := scenario_table |}.

(** The same store when the [message] table cannot be read. *)
Definition unreadable_store : Sqlite.store :=
  {| Sqlite.exists_error := None;
     Sqlite.file_exists := true;
     Sqlite.connect_error := None;
     Sqlite.execute_error := Some Sqlite.OperationalError;
     Sqlite.fetch_error := None;
     Sqlite.table := scenario_table |}.

(** The same store when the cursor raises after its first row. *)
Definition failing_cursor_store : Sqlite.store :=
  {| Sqlite.exists_error := None;
     Sqlite.file_exists := true;
     Sqlite.connect_error := None;
     Sqlite.execute_error := None;
     Sqlite.fetch_error := Some (1%nat, Sqlite.OperationalError);
     Sqlite.table := scenario_table |}.

(** A clock that prints no date, and a [strptime] that takes nothing. *)
Definition no_date (t : Z) : option pystr := None.
Definition strptime_rejects (s : pystr) : option Z := None.
Definition seconds (d : Z) : Z := d.

(** [get_messages] in this environment. *)
Definition get_messages :=
  Engine.get_messages Py.ascii_lower loads_fails no_date Z
                      strptime_rejects seconds.

(** The address of the scenarios. *)
Definition peer : pystr := Py.u "+61400000000".

(** The list a call returned, and the empty list if it raised. *)
Definition returned {A} (r : Sqlite.result (list A) * Sqlite.trace) : list A :=
  match r with
  | (Sqlite.Return l, _) => l
  | (Sqlite.Raise _, _) => []
  end.

(** The two most recent messages of the scenario store. *)
Definition two_latest : list Engine.message :=
  Eval vm_compute in returned (get_messages scenario_store peer 2 None None []).

(** The messages of the scenario store that hold "see". *)
Definition holding_see : list Engine.message :=
  Eval vm_compute in
    returned (get_messages scenario_store peer 2 (Some (Py.u "SEE")) None []).

End Samples.

(** ** The rows that become messages *)

Module Pipeline.

Import Sqlite Engine.

Section WithEnvironment.

Variable lower : pystr -> pystr.
Variable plistlib_loads : bytes -> option plist.

(** One pass of the body of the [for row in cursor] loop, up to the
    [append]: the message the row gives, if it gives one. *)
Definition surviving (keyword : option pystr) (r : row) : option message :=
  match resolve_text plistlib_loads r with
  | Some text =>
    if blank (Some text) || keyword_rejects lower keyword text then None
    else Some (make_message r text)
  | None => None
  end.

End WithEnvironment.

End Pipeline.

(** ** The conversational thread *)

Module Output.

Import Engine.

(** [str(n)] of a length: its decimal digits. *)
Definition str_of_nat (n : nat) : pystr :=
  Py.u (NilZero.string_of_uint (Nat.to_uint n)).

(** [f"{v}"] of a value that is a string or [None]. *)
Definition fmt_optional (v : option pystr) : pystr :=
  default (Py.u "None") v.

(** The newline. *)
Definition newline : pystr := [0x0A].

(** [sep.join(lines)]. *)
Fixpoint join (sep : pystr) (lines : list pystr) : pystr :=
  match lines with
  | [] => []
  | [line] => line
  | line :: lines' => line ++ sep ++ join sep lines'
  end.

(** [text.replace("\n", " ↵ ")]; the arrow is U+21B5. *)
Definition replace_newlines (text : pystr) : pystr :=
  flat_map (fun c => if c =? 0x0A then [0x20; 0x21B5; 0x20] else [c]) text.

(** [f"[{msg['date']}] {sender}: {text}"]. *)
Definition format_line (contact_name : pystr) (msg : message) : pystr :=
  let sender := if msg_is_from_me msg then Py.u "Me" else contact_name in
  let text := replace_newlines (msg_text msg) in
  Py.u "[" ++ fmt_optional (msg_date msg) ++ Py.u "] " ++ sender
  ++ Py.u ": " ++ text.

(** [format_output]. *)
Definition format_output (messages : list message)
           (contact_name contact_id : pystr) : pystr :=
  match messages with
  | [] =>
    Py.u "No messages found with " ++ contact_name ++ Py.u " ("
    ++ contact_id ++ Py.u ")"
  | _ =>
    let lines :=
      [ Py.u "Conversation with " ++ contact_name ++ Py.u " (" ++ contact_id
        ++ Py.u ") via iMessage";
        Py.u "Showing " ++ str_of_nat (length messages)
        ++ Py.u " messages (most recent first):";
        [] ]
      ++ map (format_line contact_name) messages in
    join newline lines
  end.

(** [s.count("\n")]. *)
Definition count_newlines (s : pystr) : nat :=
  length (List.filter (fun c => c =? 0x0A) s).

End Output.

(** ** The command *)

Module Main.

Import Sqlite Engine.
Local Open Scope py_scope.

(** The namespace [parser.parse_args()] returns. *)
Record arguments := {
  contact : pystr;
  recent : Z;
  keyword : option pystr;
  since : option pystr;
  contacts_file : option pystr;
  json : bool;
}.

(** Where a [print] goes. *)
Inductive stream := Stdout | Stderr.

(** The lines printed when the store cannot be read. *)
Definition access_denied : list pystr :=
  [ Py.u "ERROR: Cannot access iMessage database.";
    [];
    Py.u "Grant Full Disk Access to your terminal app:";
    Py.u "  1. Open System Settings";
    Py.u "  2. Go to Privacy & Security > Full Disk Access";
    Py.u "  3. Click + and add your terminal (Terminal, iTerm, Warp, etc.)";
    Py.u "  4. Restart your terminal" ].

Section WithEnvironment.

Variable lower : pystr -> pystr.
Variable plistlib_loads : bytes -> option plist.
Variable sql_datetime : Z -> option pystr.
Variable datetime : Type.
Variable strptime : pystr -> option datetime.
Variable timestamp : datetime -> Z.

(** [load_contacts]: the directory read from [contacts.yaml]. *)
Variable load_contacts : option pystr -> list Resolver.contact.

(** [json.dumps(output, indent=2)] of the dict made of the name, the
    address, the number of messages and the messages. *)
Variable json_dumps : pystr -> pystr -> nat -> list message -> pystr.

(** [main], from the parsed arguments on: the exit status and what was
    printed, in order. *)
Definition main (args : arguments) (st : store)
  : M (Z * list (stream * pystr)) :=
  let* access := check_fda_access st in
  if negb access then ret (1%Z, map (pair Stderr) access_denied)
  else
    let contacts := load_contacts (contacts_file args) in
    let resolved := Resolver.resolve_contact lower (contact args) contacts in
    let contact_name := fst resolved in
    let contact_id := snd resolved in
    let* messages :=
      get_messages lower plistlib_loads sql_datetime datetime strptime
                   timestamp st contact_id (recent args) (keyword args)
                   (since args) in
    ret (0%Z,
         [ (Stdout,
            if json args
            then json_dumps contact_name contact_id (length messages) messages
            else Output.format_output messages contact_name contact_id) ]).

End WithEnvironment.

End Main.

(** ** More concrete inputs *)

Module MoreSamples.

(** "cafe au lait" with its accent, in UTF-8. *)
Definition cafe_au_lait : bytes :=
  Py.b "caf" ++ [xc3; xa9] ++ Py.b " au lait".

(** The marker, the four bytes that follow it in a typedstream, and a
    text that ends the buffer. *)
Definition marker_junk : bytes := [x01; x94; x84; x01].
Definition marker_text : bytes := Py.b "Dinner at 8?".

(** A decoder that finds the class names before the text. *)
Definition loads_keyed_archive (data : bytes) : option plist :=
  Some (PDict [(Py.u "$version", PInt 100000);
               (Py.u "$objects",
                PList [PStr (Py.u "$null"); PDict []; PStr (Py.u "NSString");
                       PStr (Py.u "x"); PStr (Py.u "On my way");
                       PStr (Py.u "later")])]).

(** A buffer with the container signature and no readable run of four
    bytes besides it: the signature run holds a metadata token. *)
Definition signed_buffer : bytes := Py.b "bplistNSAttributed" ++ [x00; x01].

(** An entry with both a phone and an email. *)
Definition robert_with_email : Resolver.contact :=
  {| Resolver.name := Some (Py.u "Robert");
     Resolver.nicknames := Some [Py.u "Bob"];
     Resolver.platforms :=
       Some {[ "imessage"%string :=
                 {[ "phone"%string := Py.u "+61400000001";
                    "email"%string := Py.u "robert@example.org" ]} ]} |}.

(** Two messages, the first with a text of two lines, the second with
    no date. *)
Definition two_line_message : list Engine.message :=
  [ {| Engine.msg_text := Py.u "see you" ++ [0x0A] ++ Py.u "then";
       Engine.msg_is_from_me := true;
       Engine.msg_date := Some (Py.u "2025-12-26 21:38:00");
       Engine.msg_contact := Py.u "+61400000000" |};
    {| Engine.msg_text := Py.u "ok";
       Engine.msg_is_from_me := false;
       Engine.msg_date := None;
       Engine.msg_contact := Py.u "+61400000000" |} ].

(** A contacts file with two entries, and a [json.dumps] that is not
    looked at. *)
Definition load_contacts (path : option pystr) : list Resolver.contact :=
  [Samples.robert; Samples.sam].

Definition json_dumps (contact_name contact_id : pystr) (count : nat)
           (messages : list Engine.message) : pystr := [].

(** [main] in the environment of the scenarios. *)
Definition main :=
  Main.main Py.ascii_lower Samples.loads_fails Samples.no_date Z
            Samples.strptime_rejects Samples.seconds.

(** [--contact +61400000000 --recent 2]. *)
Definition args_peer : Main.arguments :=
  {| Main.contact := Samples.peer;
     Main.recent := 2;
     Main.keyword := None;
     Main.since := None;
     Main.contacts_file := None;
     Main.json := false |}.

(** What [main] prints for it on the scenario store. *)
Definition printed_thread : list (Main.stream * pystr) :=
  Eval vm_compute in
    match main load_contacts json_dumps args_peer Samples.scenario_store [] with
    | (Sqlite.Return (_, printed), _) => printed
    | _ => []
    end.

End MoreSamples.

(** ** The resolver on the directory as [yaml.safe_load] returns it

    [Resolver.contact] holds an entry whose keys, when present, hold values
    of the expected kind. A contacts file can hold anything: here the
    entries are the values that [yaml.safe_load] builds, and the attribute
    and type errors that Python raises on them are results. *)

Module Yaml.

(** The values of a YAML document; a mapping keeps its string keys, in
    the order of the file. *)
Inductive value :=
| Null
| Bool (b : bool)
| Int (z : Z)
| Float (nonzero : bool)
| Str (s : pystr)
| Seq (l : list value)
| Map (m : list (pystr * value)).

Inductive exn := AttributeError | TypeError.

Inductive result (A : Type) := Return (a : A) | Raise (e : exn).
Arguments Return {A} a.
Arguments Raise {A} e.

Definition bind {A B} (r : result A) (k : A -> result B) : result B :=
  match r with
  | Return a => k a
  | Raise e => Raise e
  end.

Declare Scope yaml_scope.
Delimit Scope yaml_scope with yaml.
Notation "'let*' x ':=' m 'in' k" := (bind m (fun x => k))
  (at level 10, x name, m at level 100, k at level 200, only parsing)
  : yaml_scope.
Local Open Scope yaml_scope.

(** The value at a key of a mapping. *)
Fixpoint lookup (k : pystr) (m : list (pystr * value)) : option value :=
  match m with
  | [] => None
  | (k', v) :: m' => if Py.str_eqb k k' then Some v else lookup k m'
  end.

(** [v.get(k, default)]: only a dict has [get]. *)
Definition get (v : value) (k : pystr) (default : value) : result value :=
  match v with
  | Map m => Return (match lookup k m with Some x => x | None => default end)
  | _ => Raise AttributeError
  end.

(** [bool(v)]. *)
Definition truthy (v : value) : bool :=
  match v with
  | Null => false
  | Bool b => b
  | Int z => negb (z =? 0)%Z
  | Float nonzero => nonzero
  | Str s => Py.truthy s
  | Seq l => Py.truthy l
  | Map m => Py.truthy m
  end.

(** [for x in v]: the values iterated over; a dict gives its keys, a
    string its characters. *)
Definition iterate (v : value) : result (list value) :=
  match v with
  | Seq l => Return l
  | Map m => Return (map (fun kv => Str (fst kv)) m)
  | Str s => Return (map (fun c => Str [c]) s)
  | Null | Bool _ | Int _ | Float _ => Raise TypeError
  end.

Section WithLower.

(** [str.lower]. *)
Variable lower : pystr -> pystr.

(** [v.lower()]: only a string has [lower]. *)
Definition lower_of (v : value) : result pystr :=
  match v with
  | Str s => Return (lower s)
  | _ => Raise AttributeError
  end.

(** [imessage_info = contact.get("platforms", {}).get("imessage", {})]
    and [phone = imessage_info.get("phone") or imessage_info.get("email")]. *)
Definition imessage_phone (contact : value) : result value :=
  let* platforms := get contact (Py.u "platforms") (Map []) in
  let* imessage_info := get platforms (Py.u "imessage") (Map []) in
  let* phone := get imessage_info (Py.u "phone") Null in
  if truthy phone then Return phone
  else get imessage_info (Py.u "email") Null.

(** The [for nick in nicknames] loop of one entry; [Some] is a
    [return]. *)
Fixpoint check_nicknames (identifier_lower : pystr) (contact : value)
         (nicks : list value) : result (option (value * value)) :=
  match nicks with
  | [] => Return None
  | nick :: nicks' =>
    let* nick_lower := lower_of nick in
    if Py.str_eqb identifier_lower nick_lower then
      let* phone := imessage_phone contact in
      if truthy phone then
        let* name := get contact (Py.u "name") nick in
        Return (Some (name, phone))
      else check_nicknames identifier_lower contact nicks'
    else check_nicknames identifier_lower contact nicks'
  end.

(** The body of the [for contact in contacts] loop. *)
Definition check_contact (identifier_lower : pystr) (contact : value)
  : result (option (value * value)) :=
  let* name := get contact (Py.u "name") (Str []) in
  let* nicknames := get contact (Py.u "nicknames") (Seq []) in
  let* name_lower := lower_of name in
  let* by_name :=
    if Py.str_eqb identifier_lower name_lower then
      let* phone := imessage_phone contact in
      Return (if truthy phone then Some (name, phone) else None)
    else Return None in
  match by_name with
  | Some r => Return (Some r)
  | None =>
    let* nicks := iterate nicknames in
    check_nicknames identifier_lower contact nicks
  end.

(** The [for contact in contacts] loop. *)
Fixpoint search_contacts (identifier_lower : pystr) (contacts : list value)
  : result (option (value * value)) :=
  match contacts with
  | [] => Return None
  | contact :: contacts' =>
    let* found := check_contact identifier_lower contact in
    match found with
    | Some r => Return (Some r)
    | None => search_contacts identifier_lower contacts'
    end
  end.

(** [resolve_contact] on such a directory. *)
Definition resolve_contact (identifier : pystr) (contacts : list value)
  : result (value * value) :=
  if Py.str_startswith (Py.u "+") identifier
     || Py.str_contains (Py.u "@") identifier
  then Return (Str identifier, Str identifier)
  else
    let* found := search_contacts (lower identifier) contacts in
    Return match found with
           | Some r => r
           | None => (Str identifier, Str identifier)
           end.

End WithLower.

(** *** The entries of [Resolver.contact] as YAML values *)




End Yaml.

(** ** Entries as [add-contact.py] writes them *)

Module YamlSamples.

Import Yaml.

(** The entry written for [--name Sam --email sam@example.org]: with no
    phone and no messenger name, nothing follows [platforms:]. *)
Definition sam_email_only : value :=
  Map [ (Py.u "name", Str (Py.u "Sam"));
        (Py.u "nicknames", Seq [Str (Py.u "Sam")]);
        (Py.u "context", Str (Py.u "personal"));
        (Py.u "relationship", Str []);
        (Py.u "platforms", Null);
        (Py.u "default_platform",
         Map [(Py.u "personal", Str (Py.u "messenger"))]) ].

(** The same entry without its [platforms] key. *)
Definition sam_no_platforms : value :=
  Map [ (Py.u "name", Str (Py.u "Sam"));
        (Py.u "nicknames", Seq [Str (Py.u "Sam")]);
        (Py.u "context", Str (Py.u "personal"));
        (Py.u "relationship", Str []) ].

(** The entry written for [--name "Robert Sam" --phone +61400000001]. *)
Definition robert_sam : value :=
  Map [ (Py.u "name", Str (Py.u "Robert Sam"));
        (Py.u "nicknames", Seq [Str (Py.u "Robert"); Str (Py.u "Sam")]);
        (Py.u "context", Str (Py.u "personal"));
        (Py.u "relationship", Str []);
        (Py.u "platforms",
         Map [ (Py.u "whatsapp",
                Map [(Py.u "phone", Str (Py.u "+61400000001"))]);
               (Py.u "imessage",
                Map [(Py.u "phone", Str (Py.u "+61400000001"))]) ]);
        (Py.u "default_platform",
         Map [(Py.u "personal", Str (Py.u "imessage"))]) ].

End YamlSamples.

(** * Properties *)

(** ** The extractor *)

Module ExtractorFacts.

Import Extractor.

Lemma filter_none {A} (p : A -> bool) (l : list A) :
  forallb p l = true -> List.filter (fun x => negb (p x)) l = [].
Proof.
  induction l as [|x l IH]; simpl; [reflexivity|].
  intros H. apply andb_prop in H as [Hx Hl].
  rewrite Hx. simpl. auto.
Qed.

Lemma search_marker_nil : Re.search_marker [] = None.
Proof. reflexivity. Qed.

Section WithPlistlib.

Variable plistlib_loads : bytes -> option plist.

Local Abbreviation extract := (extract_text_from_attributed_body plistlib_loads).
Local Abbreviation decoder := (structured_archive_decoder plistlib_loads).

(** The nested conditionals of the source are the or-else chain of the
    three strategies in the order regex, Scanner, Decoder. *)
Lemma extract_is_source_order (data : bytes) :
  extract data = extract_in_source_order plistlib_loads data.
Proof.
  unfold extract_text_from_attributed_body, extract_in_source_order,
    proximity_regex, readable_segment_scanner, structured_archive_decoder,
    or_else.
  destruct data as [|c data]; [reflexivity|].
  cbn [Py.truthy negb].
  destruct (Re.search_marker (c :: data)) as [g|]; [reflexivity|].
  cbn [option_map].
  destruct (List.filter _ _) as [|s rest]; [reflexivity|].
  cbv zeta. destruct (0 <? length _)%nat; reflexivity.
Qed.

(** C1 (as amended): the strategies are tried in the order proximity regex,
    Readable-Segment Scanner, Structured-Archive Decoder, and unless the
    regex match trims to the empty string the returned value is the result
    of the first of them, in that order, that yields one. *)
Theorem extract_tries_regex_scanner_decoder (data : bytes) :
  proximity_regex data <> Some [] ->
  extract data =
  or_else (proximity_regex data)
          (or_else (readable_segment_scanner data) (decoder data)).
Proof. intros _. apply extract_is_source_order. Qed.

(** C4 (evaluation at the failing input): after the marker and one byte,
    a run of two spaces is a match of the regex; it trims to the empty
    string, which is returned, whatever the buffer holds further on. *)
Theorem extract_returns_empty_string :
  extract Samples.marker_then_blanks = Some []
  /\ extract Samples.marker_blanks_then_text = Some []
  /\ readable_segment_scanner Samples.marker_blanks_then_text
     = Some (Py.u "Hello world").
Proof. repeat split; vm_compute; reflexivity. Qed.

End WithPlistlib.

(** C1 (counterexample): on a binary property list that holds "Hello" the
    regex finds nothing, the Decoder yields "Hello" and the Scanner yields
    "bplist00"; the source returns the Scanner's result, not the
    Decoder's. *)
Lemma decoder_does_not_precede_scanner :
  proximity_regex Samples.hello_archive = None
  /\ structured_archive_decoder Samples.loads_hello Samples.hello_archive
     = Some (Py.u "Hello")
  /\ readable_segment_scanner Samples.hello_archive = Some (Py.u "bplist00")
  /\ extract_text_from_attributed_body Samples.loads_hello Samples.hello_archive
     = Some (Py.u "bplist00")
  /\ extract_text_from_attributed_body Samples.loads_hello Samples.hello_archive
     <> extract_in_spec_order Samples.loads_hello Samples.hello_archive.
Proof. repeat split; vm_compute; congruence. Qed.

(** C1 (witness): a typedstream payload, found by the regex. *)
Lemma extract_tries_regex_scanner_decoder_witness :
  proximity_regex Samples.typedstream_hello <> Some []
  /\ extract_text_from_attributed_body Samples.loads_fails Samples.typedstream_hello
     = or_else (proximity_regex Samples.typedstream_hello)
         (or_else (readable_segment_scanner Samples.typedstream_hello)
            (structured_archive_decoder Samples.loads_fails
               Samples.typedstream_hello)).
Proof.
  split.
  - vm_compute. discriminate.
  - apply (extract_tries_regex_scanner_decoder Samples.loads_fails).
    vm_compute. discriminate.
Defined.

(** C3 (evaluation at the failing input): every readable run of the buffer
    is a class name of the exclusion set, which Method 2 would discard and
    Method 3 would pass over; Method 1 returns the second of them. *)
Lemma class_names_only_not_none :
  forallb is_class_name (Re.findall_readable 1 Samples.two_class_names) = true
  /\ forallb is_metadata (Re.findall_readable 4 Samples.two_class_names) = true
  /\ extract_text_from_attributed_body Samples.loads_fails
       Samples.two_class_names = Some (Py.u "NSMutableString")
  /\ extract_text_from_attributed_body Samples.loads_fails
       Samples.two_class_names <> None.
Proof. repeat split; vm_compute; congruence. Qed.

End ExtractorFacts.

(** ** The identifier resolver *)

Module ResolverFacts.

Import Resolver.

Example imessage_address_samples :
  imessage_address Samples.robert = Some (Py.u "+61400000001")
  /\ imessage_address Samples.sam = Some (Py.u "sam@example.org")
  /\ imessage_address Samples.sam_no_address = None.
Proof. repeat split; vm_compute; reflexivity. Qed.

Section WithLower.

Variable lower : pystr -> pystr.

Local Abbreviation search := (search_contacts lower).
Local Abbreviation resolve := (resolve_contact lower).

Lemma check_nicknames_no_address idl c nicks :
  imessage_address c = None -> check_nicknames lower idl c nicks = None.
Proof.
  intros Hc. induction nicks as [|nick nicks IH]; simpl; [reflexivity|].
  rewrite Hc. destruct (Py.str_eqb _ _); exact IH.
Qed.

Lemma check_nicknames_no_match idl c nicks :
  existsb (fun nick => Py.str_eqb idl (lower nick)) nicks = false ->
  check_nicknames lower idl c nicks = None.
Proof.
  induction nicks as [|nick nicks IH]; simpl; [reflexivity|].
  intros H. apply orb_false_elim in H as [H1 H2]. rewrite H1. auto.
Qed.

Lemma check_nicknames_match idl c nicks phone :
  existsb (fun nick => Py.str_eqb idl (lower nick)) nicks = true ->
  imessage_address c = Some phone ->
  exists display, check_nicknames lower idl c nicks = Some (display, phone).
Proof.
  intros Hex Hc. induction nicks as [|nick nicks IH]; simpl in *; [discriminate|].
  rewrite Hc. destruct (Py.str_eqb idl (lower nick)); [eauto|].
  apply IH, Hex.
Qed.

Lemma silent_entry idl c :
  silent lower idl c ->
  check_name lower idl c = None
  /\ check_nicknames lower idl c (default [] (nicknames c)) = None.
Proof.
  unfold silent, answers_to, check_name. intros H.
  destruct (imessage_address c) as [phone|] eqn:Hc.
  - destruct (Py.str_eqb idl _); [discriminate (H eq_refl)|].
    split; [reflexivity|].
    apply check_nicknames_no_match.
    destruct (existsb _ _); [discriminate (H eq_refl) | reflexivity].
  - split; [destruct (Py.str_eqb _ _); reflexivity|].
    apply check_nicknames_no_address, Hc.
Qed.

Lemma search_app idl pre post :
  search idl (pre ++ post)
  = match search idl pre with
    | Some r => Some r
    | None => search idl post
    end.
Proof.
  induction pre as [|c pre IH]; simpl; [reflexivity|].
  destruct (check_name _ _ _); [reflexivity|].
  destruct (check_nicknames _ _ _ _); [reflexivity|]. exact IH.
Qed.

Lemma search_silent idl cs :
  Forall (silent lower idl) cs -> search idl cs = None.
Proof.
  induction 1 as [|c cs Hc _ IH]; simpl; [reflexivity|].
  destruct (silent_entry _ _ Hc) as [-> ->]. exact IH.
Qed.

Lemma search_answering idl c post phone :
  answers_to lower idl c = true ->
  imessage_address c = Some phone ->
  exists display,
    search idl (c :: post) = Some (display, phone)
    /\ search idl [c] = Some (display, phone).
Proof.
  unfold answers_to. intros Ha Hc. simpl. unfold check_name. rewrite Hc.
  destruct (Py.str_eqb idl _); [eauto|]. simpl in Ha.
  destruct (check_nicknames_match _ _ _ _ Ha Hc) as [d ->]. eauto.
Qed.

(** C2 (as amended): the directory is scanned once, in its order, and each
    entry is tried by its name and then by its nicknames before the next
    entry is looked at: the first entry that answers to the input, by name
    or by nickname, and has an address decides the result, whatever the
    entries after it are. *)
Theorem resolve_first_answering_entry
        (identifier : pystr) (pre post : list contact) (c : contact)
        (phone : pystr) :
  Py.str_startswith (Py.u "+") identifier
  || Py.str_contains (Py.u "@") identifier = false ->
  Forall (silent lower (lower identifier)) pre ->
  answers_to lower (lower identifier) c = true ->
  imessage_address c = Some phone ->
  resolve identifier (pre ++ c :: post) = resolve identifier [c]
  /\ snd (resolve identifier (pre ++ c :: post)) = phone.
Proof.
  intros Hcanon Hpre Ha Hc. unfold resolve_contact. rewrite Hcanon.
  rewrite search_app, (search_silent _ _ Hpre).
  destruct (search_answering _ _ post _ Ha Hc) as (d & -> & ->).
  split; reflexivity.
Qed.

(** On a directory whose entries hold mappings and strings where they are
    expected: an entry without an iMessage phone or email is passed over,
    as if it were not in the directory, so the entries after it and their
    nicknames are still tried; and when no entry that answers to the input
    has an address the input comes back unchanged. *)
Theorem entry_without_address_is_skipped
        (identifier : pystr) (pre post : list contact) (c : contact) :
  imessage_address c = None ->
  resolve identifier (pre ++ c :: post) = resolve identifier (pre ++ post)
  /\ (Forall (silent lower (lower identifier)) (pre ++ post) ->
      resolve identifier (pre ++ c :: post) = (identifier, identifier)).
Proof.
  intros Hc.
  assert (Hskip : forall idl,
             search idl (pre ++ c :: post) = search idl (pre ++ post)).
  { intros idl. rewrite !search_app. simpl.
    unfold check_name. rewrite Hc.
    rewrite (check_nicknames_no_address _ _ _ Hc).
    destruct (Py.str_eqb _ _); reflexivity. }
  unfold resolve_contact. rewrite Hskip. split; [reflexivity|].
  intros Hall. rewrite (search_silent _ _ Hall).
  destruct (_ || _); reflexivity.
Qed.

End WithLower.

(** C2 (counterexample): "sam" is a nickname of the first entry and the
    name of the second; the source returns the first entry, the rule
    "names before nicknames" the second. *)
Lemma nickname_of_earlier_entry_wins :
  resolve_contact Py.ascii_lower (Py.u "sam") [Samples.robert; Samples.sam]
  = (Py.u "Robert", Py.u "+61400000001")
  /\ resolve_names_first Py.ascii_lower (Py.u "sam")
       [Samples.robert; Samples.sam]
     = (Py.u "Sam", Py.u "sam@example.org")
  /\ resolve_contact Py.ascii_lower (Py.u "sam") [Samples.robert; Samples.sam]
     <> resolve_names_first Py.ascii_lower (Py.u "sam")
          [Samples.robert; Samples.sam].
Proof. repeat split; vm_compute; congruence. Qed.

(** C2 (witness). *)
Lemma resolve_first_answering_entry_witness :
  resolve_contact Py.ascii_lower (Py.u "sam")
    ([Samples.sam_no_address] ++ Samples.robert :: [Samples.sam])
  = resolve_contact Py.ascii_lower (Py.u "sam") [Samples.robert]
  /\ snd (resolve_contact Py.ascii_lower (Py.u "sam")
            ([Samples.sam_no_address] ++ Samples.robert :: [Samples.sam]))
     = Py.u "+61400000001".
Proof.
  apply (resolve_first_answering_entry Py.ascii_lower).
  - vm_compute; reflexivity.
  - constructor; [|constructor]. intros _. vm_compute; reflexivity.
  - vm_compute; reflexivity.
  - vm_compute; reflexivity.
Defined.

(** The entry named "Sam" has no iMessage address; the search goes on to
    the entry that has "Sam" as a nickname. *)
Lemma entry_without_address_is_skipped_witness :
  imessage_address Samples.sam_no_address = None
  /\ resolve_contact Py.ascii_lower (Py.u "SAM")
       ([] ++ Samples.sam_no_address :: [Samples.robert])
     = (Py.u "Robert", Py.u "+61400000001").
Proof.
  split; [vm_compute; reflexivity|].
  destruct (entry_without_address_is_skipped Py.ascii_lower (Py.u "SAM")
              [] [Samples.robert] Samples.sam_no_address) as [-> _];
    vm_compute; reflexivity.
Defined.

End ResolverFacts.

(** ** The access guard and the history query engine *)

Module EngineFacts.

Import Sqlite Engine.

#[local] Instance date_desc_total : Total date_desc.
Proof. intros a b. unfold date_desc. lia. Qed.

#[local] Instance date_desc_trans : Transitive date_desc.
Proof. intros a b c. unfold date_desc. lia. Qed.

Lemma StronglySorted_sublist {A} (R : relation A) (k l : list A) :
  k `sublist_of` l -> StronglySorted R l -> StronglySorted R k.
Proof.
  induction 1 as [|x k l Hkl IH|x k l Hkl IH]; intros Hs.
  - constructor.
  - apply StronglySorted_inv in Hs as [Hl Hx]. constructor; [auto|].
    rewrite Forall_forall in *. intros y Hy. apply Hx.
    eapply elem_of_sublist; [exact Hy | exact Hkl].
  - apply StronglySorted_inv in Hs as [Hl _]. auto.
Qed.

Lemma sql_limit_sublist {A} (n : Z) (l : list A) :
  sql_limit n l `sublist_of` l.
Proof.
  unfold sql_limit. destruct (n <? 0)%Z; [reflexivity | apply sublist_take].
Qed.

Lemma sql_limit_length {A} (n : Z) (l : list A) :
  (0 <= n)%Z -> (Z.of_nat (length (sql_limit n l)) <= n)%Z.
Proof.
  intros Hn. unfold sql_limit.
  destruct (n <? 0)%Z eqn:E; [lia|]. rewrite length_take. lia.
Qed.

Section WithEnvironment.

Variable lower : pystr -> pystr.
Variable plistlib_loads : bytes -> option plist.
Variable sql_datetime : Z -> option pystr.
Variable datetime : Type.
Variable strptime : pystr -> option datetime.
Variable timestamp : datetime -> Z.

Local Abbreviation resolve_text := (Engine.resolve_text plistlib_loads).
Local Abbreviation built_from := (Engine.built_from plistlib_loads).
Local Abbreviation row_loop := (Engine.row_loop lower plistlib_loads).
Local Abbreviation since_bound := (Engine.since_bound datetime strptime timestamp).
Local Abbreviation get_messages :=
  (Engine.get_messages lower plistlib_loads sql_datetime datetime strptime
                       timestamp).
Local Abbreviation select_messages := (Sqlite.select_messages sql_datetime).
Local Abbreviation open_cursor := (Sqlite.open_cursor sql_datetime).

(** The result set is ordered most recent first. *)
Lemma select_messages_sorted tbl contact_id since limit :
  StronglySorted newest_first (select_messages tbl contact_id since limit).
Proof.
  unfold Sqlite.select_messages.
  apply (StronglySorted_fmap _ date_desc); [intros x y H; exact H|].
  eapply StronglySorted_sublist; [apply sql_limit_sublist|].
  apply StronglySorted_merge_sort; apply _.
Qed.

Lemma select_messages_length tbl contact_id since limit :
  (0 <= limit)%Z ->
  (Z.of_nat (length (select_messages tbl contact_id since limit)) <= limit)%Z.
Proof.
  intros H. unfold Sqlite.select_messages. rewrite length_map.
  apply sql_limit_length, H.
Qed.

Lemma open_cursor_rows st contact_id since limit :
  rows (open_cursor st contact_id since limit)
  `sublist_of` select_messages (table st) contact_id since limit.
Proof.
  unfold Sqlite.open_cursor. destruct (fetch_error st) as [[n e]|]; simpl.
  - apply sublist_take.
  - reflexivity.
Qed.

(** What the loop returns: the messages it had, followed by one message
    for each row of a subsequence of the rows, none rejected by the
    keyword. *)
Lemma row_loop_returns limit keyword rs failure acc msgs :
  row_loop limit keyword rs failure acc = Return msgs ->
  exists kept new,
    msgs = acc ++ new
    /\ kept `sublist_of` rs
    /\ Forall2 (fun r m => built_from r m
                          /\ keyword_rejects lower keyword (msg_text m) = false)
               kept new.
Proof.
  revert acc. induction rs as [|r rs IH]; intros acc; cbn [Engine.row_loop].
  - destruct failure; [discriminate|]. intros [= <-].
    exists [], []. rewrite app_nil_r. repeat split; constructor.
  - destruct (resolve_text r) as [text|] eqn:Ht.
    2:{ intros H. destruct (IH _ H) as (kept & new & ? & ? & ?).
        exists kept, new. auto using sublist_cons. }
    destruct (blank (Some text)) eqn:Hb.
    { intros H. destruct (IH _ H) as (kept & new & ? & ? & ?).
      exists kept, new. auto using sublist_cons. }
    destruct (keyword_rejects lower keyword text) eqn:Hk.
    { intros H. destruct (IH _ H) as (kept & new & ? & ? & ?).
      exists kept, new. auto using sublist_cons. }
    assert (Hbuilt : built_from r (make_message r text)
                     /\ keyword_rejects lower keyword
                          (msg_text (make_message r text)) = false).
    { unfold Engine.built_from. simpl. auto. }
    destruct (limit <=? _)%Z.
    + intros [= <-]. exists [r], [make_message r text].
      repeat split; [apply sublist_skip, sublist_nil_l|].
      constructor; [exact Hbuilt | constructor].
    + intros H. destruct (IH _ H) as (kept & new & -> & ? & ?).
      exists (r :: kept), (make_message r text :: new).
      rewrite <- app_assoc. repeat split; [apply sublist_skip; assumption|].
      constructor; assumption.
Qed.

(** The loop stops at [limit] messages. *)
Lemma row_loop_length limit keyword rs failure acc msgs :
  row_loop limit keyword rs failure acc = Return msgs ->
  (Z.of_nat (length msgs)
   <= Z.max limit (Z.of_nat (length acc + match rs with [] => 0 | _ => 1 end)))%Z.
Proof.
  revert acc. induction rs as [|r rs IH]; intros acc; cbn [Engine.row_loop].
  - destruct failure; [discriminate|]. intros [= <-]. lia.
  - assert (Hskip : row_loop limit keyword rs failure acc = Return msgs ->
                    (Z.of_nat (length msgs)
                     <= Z.max limit (Z.of_nat (length acc + 1)))%Z).
    { intros H. apply IH in H. destruct rs; lia. }
    destruct (resolve_text r) as [text|]; [|exact Hskip].
    destruct (blank (Some text)); [exact Hskip|].
    destruct (keyword_rejects lower keyword text); [exact Hskip|].
    destruct (limit <=? _)%Z eqn:Hl.
    + intros [= <-]. rewrite length_app. simpl. lia.
    + intros H. apply IH in H. apply Z.leb_gt in Hl.
      rewrite length_app in *. simpl in *. destruct rs; lia.
Qed.

(** A cursor that does not raise is read to its end or to the limit. *)
Lemma row_loop_total limit keyword rs acc :
  exists msgs, row_loop limit keyword rs None acc = Return msgs.
Proof.
  revert acc. induction rs as [|r rs IH]; intros acc; cbn [Engine.row_loop]; [eauto|].
  destruct (resolve_text r) as [text|]; [|apply IH].
  destruct (blank (Some text)); [apply IH|].
  destruct (keyword_rejects lower keyword text); [apply IH|].
  destruct (limit <=? _)%Z; [eauto | apply IH].
Qed.

(** The three steps of [get_messages] when it returns. *)
Lemma get_messages_returns st contact_id limit keyword since tr msgs tr' :
  get_messages st contact_id limit keyword since tr = (Return msgs, tr') ->
  let cur := open_cursor st contact_id (since_bound since) (limit * 2) in
  row_loop limit keyword (rows cur) (failure cur) [] = Return msgs
  /\ tr' = tr ++ [Opened; Closed].
Proof.
  unfold Engine.get_messages, bind, connect, execute_query, lift, close, log,
    ret, raise.
  destruct (connect_error st); [discriminate|].
  destruct (execute_error st); [discriminate|].
  destruct (Engine.row_loop _ _ _ _ _ _ _) as [m|e]; [|discriminate].
  intros [= <- <-]. rewrite <- app_assoc. split; reflexivity.
Qed.

(** On a store that raises nothing, [get_messages] returns. *)
Lemma get_messages_total st contact_id limit keyword since tr :
  connect_error st = None -> execute_error st = None ->
  fetch_error st = None ->
  exists msgs,
    get_messages st contact_id limit keyword since tr
    = (Return msgs, tr ++ [Opened; Closed]).
Proof.
  intros Hc He Hf.
  unfold Engine.get_messages, bind, connect, execute_query, lift, close, log,
    ret, raise, Sqlite.open_cursor.
  rewrite Hc, He, Hf. simpl.
  destruct (row_loop_total limit keyword
              (select_messages (table st) contact_id (since_bound since)
                               (limit * 2)) []) as [msgs ->].
  exists msgs. rewrite <- app_assoc. reflexivity.
Qed.

Lemma contains_nil {A} (eqb : A -> A -> bool) (s : list A) :
  Py.contains eqb [] s = true.
Proof. destruct s; reflexivity. Qed.

(** A keyword that does not reject a text is in it, letter case apart. *)
Lemma keyword_accepts k text :
  lower [] = [] ->
  keyword_rejects lower (Some k) text = false ->
  Py.str_contains (lower k) (lower text) = true.
Proof.
  intros Hnil. unfold keyword_rejects. destruct k as [|c k]; simpl.
  - intros _. rewrite Hnil. apply contains_nil.
  - intros H. apply negb_false_iff, H.
Qed.

(** C5: with a keyword, each returned message is built from a row of the
    cursor whose resolved text is the text of the message, and that text
    holds the keyword, letter case apart; so no row whose resolved text
    lacks the keyword is returned. *)
Theorem keyword_filter_holds st contact_id limit k since tr msgs tr' :
  lower [] = [] ->
  get_messages st contact_id limit (Some k) since tr = (Return msgs, tr') ->
  Forall (fun m => Py.str_contains (lower k) (lower (msg_text m)) = true) msgs
  /\ exists kept,
       kept `sublist_of`
         rows (open_cursor st contact_id (since_bound since) (limit * 2))
       /\ Forall2 (fun r m =>
                     resolve_text r = Some (msg_text m)
                     /\ Py.str_contains (lower k) (lower (msg_text m)) = true)
                  kept msgs.
Proof.
  intros Hnil H. apply get_messages_returns in H as [H _].
  apply row_loop_returns in H as (kept & new & -> & Hsub & Hall).
  rewrite app_nil_l.
  assert (Hall' : Forall2 (fun r m =>
                     resolve_text r = Some (msg_text m)
                     /\ Py.str_contains (lower k) (lower (msg_text m)) = true)
                    kept new).
  { eapply Forall2_impl; [exact Hall|]. intros r m [(Hr & _ & _) Hk].
    split; [exact Hr | apply keyword_accepts; assumption]. }
  split; [|exists kept; split; assumption].
  clear Hall Hsub. induction Hall' as [|r m kept new [_ Hm] _ IH];
    constructor; assumption.
Qed.

(** C6: for a limit that is not negative the list returned has at most
    [limit] elements. *)
Theorem limit_respected st contact_id limit keyword since tr msgs tr' :
  (0 <= limit)%Z ->
  get_messages st contact_id limit keyword since tr = (Return msgs, tr') ->
  (Z.of_nat (length msgs) <= limit)%Z.
Proof.
  intros Hlimit H. apply get_messages_returns in H as [H _].
  pose proof (row_loop_length _ _ _ _ _ _ H) as Hlen.
  pose proof (sublist_length _ _
                (open_cursor_rows st contact_id (since_bound since) (limit * 2)))
    as Hrows.
  pose proof (select_messages_length (table st) contact_id (since_bound since)
                (limit * 2) ltac:(lia)) as Hset.
  destruct (rows _) as [|r rs]; simpl in *; lia.
Qed.

(** C7: the messages returned are built, one by one and in the same
    order, from a subsequence of the result set of the query, and these
    rows are non-increasing in their store-native timestamp. *)
Theorem newest_first_preserved st contact_id limit keyword since tr msgs tr' :
  get_messages st contact_id limit keyword since tr = (Return msgs, tr') ->
  exists kept,
    Forall2 built_from kept msgs
    /\ kept `sublist_of`
         select_messages (table st) contact_id (since_bound since) (limit * 2)
    /\ StronglySorted newest_first kept.
Proof.
  intros H. apply get_messages_returns in H as [H _].
  apply row_loop_returns in H as (kept & new & -> & Hsub & Hall).
  rewrite app_nil_l.
  assert (Hset : kept `sublist_of`
           select_messages (table st) contact_id (since_bound since) (limit * 2)).
  { etransitivity; [exact Hsub | apply open_cursor_rows]. }
  exists kept. split; [|split].
  - eapply Forall2_impl; [exact Hall|]. intros r m [Hb _]. exact Hb.
  - exact Hset.
  - eapply StronglySorted_sublist; [exact Hset | apply select_messages_sorted].
Qed.

(** C8: a [since] that [strptime] does not take adds no bound: the call
    does what the call without [since] does, and on a store that raises
    nothing it returns its list. *)
Theorem malformed_since_is_dropped st contact_id limit keyword s tr :
  strptime s = None ->
  get_messages st contact_id limit keyword (Some s) tr
  = get_messages st contact_id limit keyword None tr
  /\ (connect_error st = None -> execute_error st = None ->
      fetch_error st = None ->
      exists msgs,
        get_messages st contact_id limit keyword (Some s) tr
        = (Return msgs, tr ++ [Opened; Closed])).
Proof.
  intros Hs. split.
  - unfold Engine.get_messages, Engine.since_bound. rewrite Hs.
    destruct (Py.truthy s); reflexivity.
  - apply get_messages_total.
Qed.

(** C9 (as amended): when neither the probe, the execution of the query
    nor the reading of the cursor raises, both functions leave the trace
    as it was (no connection was opened: the file is absent, or [connect]
    raised) or add to it one connection opened and then closed. *)
Theorem connection_closed_unless_raised st contact_id limit keyword since tr :
  execute_error st = None ->
  fetch_error st = None ->
  (snd (check_fda_access st tr) = tr
   \/ snd (check_fda_access st tr) = tr ++ [Opened; Closed])
  /\ (snd (get_messages st contact_id limit keyword since tr) = tr
      \/ snd (get_messages st contact_id limit keyword since tr)
         = tr ++ [Opened; Closed]).
Proof.
  intros He Hf. split.
  - unfold check_fda_access, path_exists, try_except, bind, connect,
      execute_probe, close, log, ret, raise.
    destruct (exists_error st); [left; reflexivity|].
    destruct (file_exists st); simpl; [|left; reflexivity].
    rewrite He.
    destruct (connect_error st) as [e|]; simpl.
    + destruct (is_database_error e); left; reflexivity.
    + right. rewrite <- app_assoc. reflexivity.
  - destruct (connect_error st) as [e|] eqn:Hc.
    + left. unfold Engine.get_messages, bind, connect. rewrite Hc. reflexivity.
    + right.
      destruct (get_messages_total st contact_id limit keyword since tr Hc He Hf)
        as [msgs ->].
      reflexivity.
Qed.

End WithEnvironment.

(** C5 (witness): the keyword "SEE" on the scenario store. *)
Lemma keyword_filter_holds_witness :
  Forall (fun m => Py.str_contains (Py.ascii_lower (Py.u "SEE"))
                     (Py.ascii_lower (msg_text m)) = true)
         Samples.holding_see
  /\ Samples.holding_see <> [].
Proof.
  split; [|discriminate].
  apply (keyword_filter_holds Py.ascii_lower Samples.loads_fails
           Samples.no_date Z Samples.strptime_rejects Samples.seconds
           Samples.scenario_store Samples.peer 2 (Py.u "SEE") None []
           Samples.holding_see [Opened; Closed]).
  - reflexivity.
  - vm_compute. reflexivity.
Defined.

(** C6 (witness): a limit of two on the scenario store. *)
Lemma limit_respected_witness :
  (0 <= 2)%Z /\ (Z.of_nat (length Samples.two_latest) <= 2)%Z.
Proof.
  split; [lia|].
  apply (limit_respected Py.ascii_lower Samples.loads_fails
           Samples.no_date Z Samples.strptime_rejects Samples.seconds
           Samples.scenario_store Samples.peer 2 None None []
           Samples.two_latest [Opened; Closed]).
  - lia.
  - vm_compute. reflexivity.
Defined.

(** C7 (witness): the two most recent messages of the scenario store. *)
Lemma newest_first_preserved_witness :
  exists kept,
    Forall2 (Engine.built_from Samples.loads_fails) kept Samples.two_latest
    /\ kept `sublist_of`
         Sqlite.select_messages Samples.no_date Samples.scenario_table
           Samples.peer None 4
    /\ StronglySorted newest_first kept.
Proof.
  apply (newest_first_preserved Py.ascii_lower Samples.loads_fails
           Samples.no_date Z Samples.strptime_rejects Samples.seconds
           Samples.scenario_store Samples.peer 2 None None []
           Samples.two_latest [Opened; Closed]).
  vm_compute. reflexivity.
Defined.

(** C8 (witness): "yesterday" is not a date. *)
Lemma malformed_since_is_dropped_witness :
  Samples.get_messages Samples.scenario_store Samples.peer 2 None
    (Some (Py.u "yesterday")) []
  = Samples.get_messages Samples.scenario_store Samples.peer 2 None None [].
Proof.
  apply (malformed_since_is_dropped Py.ascii_lower Samples.loads_fails
           Samples.no_date Z Samples.strptime_rejects Samples.seconds
           Samples.scenario_store Samples.peer 2 None (Py.u "yesterday") []).
  reflexivity.
Defined.

(** C9 (witness): the scenario store raises nothing. *)
Lemma connection_closed_unless_raised_witness :
  execute_error Samples.scenario_store = None
  /\ fetch_error Samples.scenario_store = None
  /\ (snd (check_fda_access Samples.scenario_store []) = []
      \/ snd (check_fda_access Samples.scenario_store [])
         = [] ++ [Opened; Closed])
  /\ (snd (Samples.get_messages Samples.scenario_store Samples.peer 2 None
             None []) = []
      \/ snd (Samples.get_messages Samples.scenario_store Samples.peer 2 None
                None [])
         = [] ++ [Opened; Closed]).
Proof.
  split; [reflexivity|]. split; [reflexivity|].
  apply (connection_closed_unless_raised Py.ascii_lower Samples.loads_fails
           Samples.no_date Z Samples.strptime_rejects Samples.seconds
           Samples.scenario_store Samples.peer 2 None None []);
    reflexivity.
Defined.

(** C9 (counterexample): when the [message] table cannot be read the
    guard returns [False] and the engine raises, each with its connection
    opened and never closed; so does the engine when the cursor raises
    after its first row. *)
Lemma connection_left_open_on_error :
  check_fda_access Samples.unreadable_store [] = (Return false, [Opened])
  /\ Samples.get_messages Samples.unreadable_store Samples.peer 2 None None []
     = (Raise OperationalError, [Opened])
  /\ Samples.get_messages Samples.failing_cursor_store Samples.peer 2 None
       None []
     = (Raise OperationalError, [Opened])
  /\ still_open 0 [Opened] = 1%nat.
Proof. repeat split; vm_compute; reflexivity. Qed.

(** The scenarios of the specification: the two most recent messages, and
    the keyword "see". *)
Example scenario_texts :
  map msg_text Samples.two_latest = [Py.u "call me"; Py.u "see you then"]
  /\ map msg_text Samples.holding_see = [Py.u "see you then"].
Proof. split; vm_compute; reflexivity. Qed.

(** A negative limit is outside [QueryFilter]: [LIMIT -2] bounds nothing
    and the loop stops after its first message. *)
Example negative_limit_returns_one :
  map msg_text
      (Samples.returned
         (Samples.get_messages Samples.scenario_store Samples.peer (-1)
                               None None []))
  = [Py.u "call me"].
Proof. vm_compute. reflexivity. Qed.

End EngineFacts.

(** ** More on the extractor: what the two regular expressions recover *)

Module ExtractorMore.

Import Extractor.

(** *** The readable runs *)

Lemma run_readable (s : bytes) :
  Forall (fun c => Re.readable c = true) (Re.run s).
Proof.
  induction s as [|c s IH]; simpl; [constructor|].
  destruct (Re.readable c) eqn:E; constructor; assumption.
Qed.

Lemma run_app (text rest : bytes) :
  Forall (fun c => Re.readable c = true) text ->
  Re.run rest = [] ->
  Re.run (text ++ rest) = text.
Proof.
  intros Ht Hr. induction Ht as [|c text Hc _ IH]; simpl; [exact Hr|].
  rewrite Hc, IH. reflexivity.
Qed.

Lemma lazy_dots_then_run_readable n s g :
  Re.lazy_dots_then_run n s = Some g ->
  Forall (fun c => Re.readable c = true) g /\ (2 <= length g)%nat.
Proof.
  revert s. induction n as [|n IH]; intros s;
    cbn [Re.lazy_dots_then_run]; [discriminate|].
  destruct s as [|c s]; [discriminate|].
  destruct (Re.dot c); [|discriminate]. cbv zeta.
  destruct (2 <=? length (Re.run s))%nat eqn:E.
  - intros [= <-]. split; [apply run_readable|].
    apply Nat.leb_le in E. exact E.
  - apply IH.
Qed.

Lemma search_marker_readable s g :
  Re.search_marker s = Some g ->
  Forall (fun c => Re.readable c = true) g /\ (2 <= length g)%nat.
Proof.
  induction s as [|c s IH]; simpl.
  - unfold Re.match_marker_here. simpl. discriminate.
  - destruct (Re.match_marker_here (c :: s)) as [g'|] eqn:E.
    + intros [= <-]. unfold Re.match_marker_here in E.
      destruct (Py.bytes_startswith _ _); [|discriminate].
      eapply lazy_dots_then_run_readable, E.
    + exact IH.
Qed.

(** Every match of [findall] is a slice of what was read, made of
    readable bytes, [n] of them at least. *)
Lemma findall_from_spec n cur s seg :
  Forall (fun c => Re.readable c = true) cur ->
  In seg (Re.findall_from n cur s) ->
  Forall (fun c => Re.readable c = true) seg
  /\ (n <= length seg)%nat
  /\ exists before after, rev cur ++ s = before ++ seg ++ after.
Proof.
  revert cur. induction s as [|c s IH]; intros cur Hcur; simpl.
  - unfold Re.emit. destruct (n <=? length cur)%nat eqn:E; [|intros []].
    intros [<-|[]]. apply Nat.leb_le in E.
    split; [apply Forall_rev, Hcur|]. split; [rewrite length_rev; exact E|].
    exists [], []. rewrite !app_nil_r. reflexivity.
  - destruct (Re.readable c) eqn:Hc.
    + intros Hin. destruct (IH (c :: cur)) with (2 := Hin)
        as (Hr & Hl & before & after & Heq); [constructor; assumption|].
      split; [exact Hr|]. split; [exact Hl|].
      exists before, after. rewrite <- Heq. simpl. rewrite <- app_assoc.
      reflexivity.
    + intros Hin. apply in_app_or in Hin as [Hin|Hin].
      * unfold Re.emit in Hin.
        destruct (n <=? length cur)%nat eqn:E; [|destruct Hin].
        destruct Hin as [<-|[]]. apply Nat.leb_le in E.
        split; [apply Forall_rev, Hcur|].
        split; [rewrite length_rev; exact E|].
        exists [], (c :: s). reflexivity.
      * destruct (IH []) with (2 := Hin)
          as (Hr & Hl & before & after & Heq); [constructor|].
        split; [exact Hr|]. split; [exact Hl|].
        exists (rev cur ++ c :: before), after.
        simpl in Heq. rewrite Heq, <- app_assoc. reflexivity.
Qed.

(** X6: every segment that [re.findall] hands to the Scanner is a
    contiguous slice of the buffer, made of readable bytes only, four of
    them at least. *)
Theorem scanner_segments_are_readable_slices (data seg : bytes) :
  In seg (Re.findall_readable 4 data) ->
  Forall (fun c => Re.readable c = true) seg
  /\ (4 <= length seg)%nat
  /\ exists before after, data = before ++ seg ++ after.
Proof.
  intros Hin. apply (findall_from_spec 4 [] data seg); [constructor | exact Hin].
Qed.

Lemma scanner_segments_are_readable_slices_witness :
  Forall (fun c => Re.readable c = true) (Py.b "X$objects")
  /\ (4 <= length (Py.b "X$objects"))%nat
  /\ exists before after,
       Samples.hello_archive = before ++ Py.b "X$objects" ++ after.
Proof.
  apply (scanner_segments_are_readable_slices Samples.hello_archive).
  vm_compute. right. left. reflexivity.
Defined.

(** *** The longest segment *)

Lemma max_by_len_spec (x : bytes) (l : list bytes) :
  In (max_by_len x l) (x :: l)
  /\ Forall (fun s => (length s <= length (max_by_len x l))%nat) (x :: l).
Proof.
  unfold max_by_len. revert x. induction l as [|y l IH]; intros x; simpl.
  - split; [left; reflexivity|]. constructor; [lia | constructor].
  - destruct (IH (if (length x <? length y)%nat then y else x)) as [Hin Hall].
    apply Forall_cons in Hall as [Hbest Hall].
    split.
    + destruct Hin as [Hin|Hin]; [|right; right; exact Hin].
      rewrite <- Hin. destruct (length x <? length y)%nat; auto.
    + destruct (length x <? length y)%nat eqn:E.
      * apply Nat.ltb_lt in E. constructor; [lia|]. constructor; assumption.
      * apply Nat.ltb_ge in E. constructor; [assumption|].
        constructor; [lia | assumption].
Qed.

Lemma scanner_origin (data : bytes) (s : pystr) :
  readable_segment_scanner data = Some s ->
  exists seg,
    In seg (Re.findall_readable 4 data)
    /\ is_metadata seg = false
    /\ (forall seg', In seg' (Re.findall_readable 4 data) ->
                     is_metadata seg' = false ->
                     (length seg' <= length seg)%nat)
    /\ s = Py.strip (Py.decode_utf8_ignore seg)
    /\ s <> [].
Proof.
  unfold readable_segment_scanner.
  destruct (List.filter _ _) as [|x rest] eqn:Hf; [discriminate|].
  cbv zeta. destruct (0 <? length _)%nat eqn:Hlen; [|discriminate].
  intros [= <-].
  destruct (max_by_len_spec x rest) as [Hin Hall].
  rewrite <- Hf in Hin, Hall.
  apply filter_In in Hin as [Hin Hmeta].
  exists (max_by_len x rest). split; [exact Hin|].
  split; [apply negb_true_iff, Hmeta|]. split; [|split; [reflexivity|]].
  - intros seg' Hin' Hmeta'. rewrite Forall_forall in Hall. apply Hall.
    apply list_elem_of_In, filter_In. split; [exact Hin'|].
    rewrite Hmeta'. reflexivity.
  - apply Nat.ltb_lt in Hlen. intros E. rewrite E in Hlen. simpl in Hlen. lia.
Qed.

(** X5: what the Scanner returns is the trimmed decoding of one of the
    segments of four readable bytes or more that holds no metadata token,
    and no such segment of the buffer is longer than it. *)
Theorem scanner_returns_a_longest_segment (data : bytes) (s : pystr) :
  readable_segment_scanner data = Some s ->
  exists seg,
    In seg (Re.findall_readable 4 data)
    /\ is_metadata seg = false
    /\ (forall seg', In seg' (Re.findall_readable 4 data) ->
                     is_metadata seg' = false ->
                     (length seg' <= length seg)%nat)
    /\ s = Py.strip (Py.decode_utf8_ignore seg)
    /\ s <> [].
Proof. apply scanner_origin. Qed.

Lemma scanner_returns_a_longest_segment_witness :
  exists seg,
    In seg (Re.findall_readable 4 Samples.marker_blanks_then_text)
    /\ is_metadata seg = false
    /\ (forall seg',
           In seg' (Re.findall_readable 4 Samples.marker_blanks_then_text) ->
           is_metadata seg' = false -> (length seg' <= length seg)%nat)
    /\ Py.u "Hello world" = Py.strip (Py.decode_utf8_ignore seg)
    /\ Py.u "Hello world" <> [].
Proof.
  apply (scanner_returns_a_longest_segment Samples.marker_blanks_then_text).
  vm_compute. reflexivity.
Defined.

(** *** Decoding a readable run *)

(** A readable byte is never a continuation byte, so every multi-byte
    lead of a readable run is dropped. *)
Lemma utf8_ignore_readable (s : list N) :
  Forall (fun n => 0x20 <= n <= 0x7E \/ 0xC0 <= n <= 0xFF) s ->
  Forall (fun n => 0x20 <= n <= 0x7E) (Py.utf8_ignore s).
Proof.
  induction 1 as [|ch r1 Hch Hr1 IH]; [constructor|].
  assert (Hnext : match r1 with
                  | [] => True
                  | ch2 :: _ => Py.is_continuation ch2 = false
                  end).
  { destruct Hr1 as [|ch2 r2 Hch2 _]; [exact I|].
    unfold Py.is_continuation.
    destruct (N.leb_spec 0x80 ch2), (N.ltb_spec ch2 0xC0); simpl; try reflexivity.
    lia. }
  cbn [Py.utf8_ignore].
  destruct (N.ltb_spec ch 0x80); [constructor; [lia | exact IH]|].
  destruct (ch <? 0xC2); [exact IH|].
  destruct r1 as [|ch2 r2].
  { repeat (destruct (_ <? _); try constructor). }
  rewrite Hnext. cbn [negb orb].
  repeat (destruct (ch <? _); try exact IH).
Qed.

Lemma decode_readable (g : bytes) :
  Forall (fun c => Re.readable c = true) g ->
  Forall (fun n => 0x20 <= n <= 0x7E) (Py.decode_utf8_ignore g).
Proof.
  intros H. apply utf8_ignore_readable.
  induction H as [|c g Hc _ IH]; simpl; constructor; [|exact IH].
  unfold Re.readable in Hc. cbv zeta in Hc.
  destruct (N.leb_spec 0x20 (Byte.to_N c)), (N.leb_spec (Byte.to_N c) 0x7E),
    (N.leb_spec 0xC0 (Byte.to_N c)), (N.leb_spec (Byte.to_N c) 0xFF);
    simpl in Hc; try discriminate; lia.
Qed.

(** *** Trimming *)

Lemma lstrip_Forall (P : N -> Prop) (s : pystr) :
  Forall P s -> Forall P (Py.lstrip s).
Proof.
  induction 1 as [|c s Hc Hs IH]; simpl; [constructor|].
  destruct (Py.isspace c); [exact IH | constructor; assumption].
Qed.

Lemma strip_Forall (P : N -> Prop) (s : pystr) :
  Forall P s -> Forall P (Py.strip s).
Proof.
  intros H. unfold Py.strip, Py.rstrip.
  apply Forall_rev, lstrip_Forall, Forall_rev, lstrip_Forall, H.
Qed.

Lemma lstrip_head (s : pystr) :
  Py.lstrip s = []
  \/ exists c t, Py.lstrip s = c :: t /\ Py.isspace c = false.
Proof.
  induction s as [|c s IH]; simpl; [left; reflexivity|].
  destruct (Py.isspace c) eqn:E; [exact IH | right; eauto].
Qed.

Lemma lstrip_fixed (c : N) (t : pystr) :
  Py.isspace c = false -> Py.lstrip (c :: t) = c :: t.
Proof. intros H. simpl. rewrite H. reflexivity. Qed.

Lemma lstrip_idem (s : pystr) : Py.lstrip (Py.lstrip s) = Py.lstrip s.
Proof.
  destruct (lstrip_head s) as [->|(c & t & -> & Hc)];
    [reflexivity | apply lstrip_fixed, Hc].
Qed.

Lemma lstrip_snoc (l : pystr) (c : N) :
  Py.isspace c = false -> Py.lstrip (l ++ [c]) = Py.lstrip l ++ [c].
Proof.
  intros Hc. induction l as [|x l IH]; simpl; [rewrite Hc; reflexivity|].
  destruct (Py.isspace x); [exact IH | reflexivity].
Qed.

Lemma rstrip_idem (s : pystr) : Py.rstrip (Py.rstrip s) = Py.rstrip s.
Proof. unfold Py.rstrip. rewrite rev_involutive, lstrip_idem. reflexivity. Qed.

Lemma rstrip_keeps_head (c : N) (t : pystr) :
  Py.isspace c = false ->
  Py.rstrip (c :: t) = c :: Py.rstrip t.
Proof.
  intros Hc. unfold Py.rstrip. simpl.
  rewrite (lstrip_snoc _ _ Hc), rev_app_distr. reflexivity.
Qed.

(** [strip] does nothing to a string it has produced. *)
Lemma strip_idem (s : pystr) : Py.strip (Py.strip s) = Py.strip s.
Proof.
  unfold Py.strip.
  destruct (lstrip_head s) as [->|(c & t & -> & Hc)]; [reflexivity|].
  rewrite (rstrip_keeps_head _ _ Hc), (lstrip_fixed _ _ Hc).
  rewrite <- (rstrip_keeps_head _ _ Hc). apply rstrip_idem.
Qed.

(** *** The proximity regex on a marker followed by a run *)

Lemma lazy_dots_skip_junk (n : nat) (junk tail : bytes) :
  junk <> [] ->
  (length junk <= n)%nat ->
  Forall (fun c => Re.readable c = false /\ Re.dot c = true) junk ->
  (2 <= length (Re.run tail))%nat ->
  Re.lazy_dots_then_run n (junk ++ tail) = Some (Re.run tail).
Proof.
  intros Hne Hlen Hjunk Hrun. revert n Hlen.
  induction Hjunk as [|c junk [Hc Hd] Hjunk IH]; [congruence|].
  intros [|n] Hlen; simpl in Hlen; [lia|].
  cbn [Re.lazy_dots_then_run app]. rewrite Hd. cbv zeta.
  destruct junk as [|c2 junk].
  - cbn [app]. apply Nat.leb_le in Hrun. rewrite Hrun. reflexivity.
  - assert (Hempty : Re.run ((c2 :: junk) ++ tail) = []).
    { apply Forall_cons in Hjunk as [[Hc2 _] _]. simpl. rewrite Hc2.
      reflexivity. }
    rewrite Hempty. simpl length. cbn [Nat.leb].
    apply IH; [discriminate | simpl in *; lia].
Qed.

Lemma startswith_marker (tail : bytes) :
  Py.bytes_startswith Re.NSString (Re.NSString ++ tail) = true.
Proof. reflexivity. Qed.

Lemma search_marker_at_head (junk text rest : bytes) :
  junk <> [] ->
  (length junk <= 20)%nat ->
  Forall (fun c => Re.readable c = false /\ Re.dot c = true) junk ->
  Forall (fun c => Re.readable c = true) text ->
  (2 <= length text)%nat ->
  Re.run rest = [] ->
  Re.search_marker (Re.NSString ++ junk ++ text ++ rest) = Some text.
Proof.
  intros Hne Hlen Hjunk Htext H2 Hrest.
  assert (Hrun : Re.run (text ++ rest) = text) by (apply run_app; assumption).
  assert (Hm : Re.match_marker_here (Re.NSString ++ junk ++ text ++ rest)
               = Some text).
  { unfold Re.match_marker_here. rewrite startswith_marker, drop_app_length.
    rewrite <- Hrun at 2. apply lazy_dots_skip_junk; try assumption.
    rewrite Hrun. exact H2. }
  destruct (Re.NSString ++ junk ++ text ++ rest) eqn:E;
    [discriminate E|].
  cbn [Re.search_marker]. rewrite Hm. reflexivity.
Qed.

(** *** The payload string of the Decoder *)

Lemma seq_eqb_eq (p q : pystr) : Py.str_eqb p q = true <-> p = q.
Proof.
  unfold Py.str_eqb. revert q.
  induction p as [|x p IH]; intros [|y q]; simpl; try (split; congruence).
  rewrite andb_true_iff, N.eqb_eq, IH. split; [intros [-> ->] | intros [= -> ->]]; auto.
Qed.

Lemma first_payload_string_spec (l : list plist) (s : pystr) :
  first_payload_string l = Some s ->
  (exists before after,
      l = before ++ PStr s :: after
      /\ Forall (fun obj => is_payload_string obj = None) before)
  /\ (1 < length s)%nat
  /\ ~ In s reserved_names.
Proof.
  induction l as [|obj l IH]; simpl; [discriminate|].
  destruct (is_payload_string obj) as [s'|] eqn:E.
  - intros [= ->]. unfold is_payload_string in E.
    destruct obj as [s'| | | | | |]; try discriminate.
    destruct (1 <? length s')%nat eqn:Hlen; [|discriminate].
    destruct (existsb _ _) eqn:Hres; [discriminate|].
    injection E as ->. split; [exists [], l; split; [reflexivity | constructor]|].
    split; [apply Nat.ltb_lt, Hlen|].
    intros Hin. apply not_true_iff_false in Hres. apply Hres.
    apply existsb_exists. exists s. split; [exact Hin | apply seq_eqb_eq; reflexivity].
  - intros H. destruct (IH H) as ((before & after & -> & Hb) & Hlen & Hres).
    split; [|split; assumption].
    exists (obj :: before), after. split; [reflexivity|].
    constructor; assumption.
Qed.

Section WithPlistlib.

Variable plistlib_loads : bytes -> option plist.

(** X3: when the buffer starts with the marker, followed by one to twenty
    bytes that are neither readable nor a newline and then by a readable
    run of two bytes or more, the extractor returns that whole run,
    decoded and trimmed. *)
Theorem marker_then_run_is_recovered (junk text rest : bytes) :
  junk <> [] ->
  (length junk <= 20)%nat ->
  Forall (fun c => Re.readable c = false /\ Re.dot c = true) junk ->
  Forall (fun c => Re.readable c = true) text ->
  (2 <= length text)%nat ->
  Re.run rest = [] ->
  extract_text_from_attributed_body plistlib_loads
    (Re.NSString ++ junk ++ text ++ rest)
  = Some (Py.strip (Py.decode_utf8_ignore text)).
Proof.
  intros Hne Hlen Hjunk Htext H2 Hrest.
  pose proof (search_marker_at_head junk text rest Hne Hlen Hjunk Htext H2
                Hrest) as Hs.
  unfold extract_text_from_attributed_body.
  destruct (Re.NSString ++ junk ++ text ++ rest) eqn:E; [discriminate E|].
  cbn [Py.truthy negb]. rewrite Hs. reflexivity.
Qed.

(** X4: what the Decoder returns is the first string of [$objects] that
    has more than one character and is not a reserved class name: it is
    never "$null", "NSString" or "NSMutableString", and it is returned
    only for a buffer that starts with the signature. *)
Theorem decoder_returns_first_payload_string (data : bytes) (s : pystr) :
  structured_archive_decoder plistlib_loads data = Some s ->
  Py.bytes_startswith (Py.b "bplist") data = true
  /\ (1 < length s)%nat
  /\ ~ In s reserved_names
  /\ exists d objs before after,
       plistlib_loads data = Some (PDict d)
       /\ Plist.dict_get (Py.u "$objects") d = Some objs
       /\ Plist.iter objs = Some (before ++ PStr s :: after)
       /\ Forall (fun obj => is_payload_string obj = None) before.
Proof.
  unfold structured_archive_decoder.
  destruct (Py.bytes_startswith _ _); [|discriminate].
  destruct (plistlib_loads data) as [[| | | | | |d]|]; try discriminate.
  destruct (Plist.dict_get _ d) as [objs|] eqn:Hd; [|discriminate].
  simpl. destruct (Plist.iter objs) as [l|] eqn:Hi; [|discriminate].
  simpl. intros H.
  apply first_payload_string_spec in H
    as ((before & after & -> & Hb) & Hlen & Hres).
  split; [reflexivity|]. split; [exact Hlen|]. split; [exact Hres|].
  exists d, objs, before, after. auto.
Qed.

(** The strategy a returned string comes from. *)
Lemma extract_origin (data : bytes) (s : pystr) :
  extract_text_from_attributed_body plistlib_loads data = Some s ->
  proximity_regex data = Some s
  \/ readable_segment_scanner data = Some s
  \/ structured_archive_decoder plistlib_loads data = Some s.
Proof.
  rewrite ExtractorFacts.extract_is_source_order.
  unfold extract_in_source_order, or_else.
  destruct (proximity_regex data); [auto|].
  destruct (readable_segment_scanner data); auto.
Qed.

Lemma regex_or_scanner_origin (data : bytes) (s : pystr) :
  proximity_regex data = Some s \/ readable_segment_scanner data = Some s ->
  exists g, Forall (fun c => Re.readable c = true) g
            /\ s = Py.strip (Py.decode_utf8_ignore g).
Proof.
  intros [H|H].
  - unfold proximity_regex in H.
    destruct (Re.search_marker data) as [g|] eqn:E; [|discriminate].
    injection H as <-. exists g. split; [|reflexivity].
    apply (search_marker_readable _ _ E).
  - apply scanner_origin in H as (seg & Hin & _ & _ & -> & _).
    exists seg. split; [|reflexivity].
    apply (findall_from_spec 4 [] data seg); [constructor | exact Hin].
Qed.

(** X1: a string that the regex or the Scanner recovers holds printable
    ASCII only: the readable class leaves out the continuation bytes, so
    the decoder drops every character outside ASCII. Only the Decoder can
    return anything else. *)
Theorem regex_and_scanner_recover_ascii_only (data : bytes) (s : pystr) :
  extract_text_from_attributed_body plistlib_loads data = Some s ->
  Forall (fun n => 0x20 <= n <= 0x7E) s
  \/ structured_archive_decoder plistlib_loads data = Some s.
Proof.
  intros H. apply extract_origin in H as [H|[H|H]]; [| |right; exact H];
    left.
  - destruct (regex_or_scanner_origin data s (or_introl H)) as (g & Hg & ->).
    apply strip_Forall, decode_readable, Hg.
  - destruct (regex_or_scanner_origin data s (or_intror H)) as (g & Hg & ->).
    apply strip_Forall, decode_readable, Hg.
Qed.

(** X2: a string that the regex or the Scanner recovers is trimmed: to
    strip it again changes nothing. Only the Decoder can return a string
    with whitespace around it. *)
Theorem regex_and_scanner_results_are_trimmed (data : bytes) (s : pystr) :
  extract_text_from_attributed_body plistlib_loads data = Some s ->
  Py.strip s = s
  \/ structured_archive_decoder plistlib_loads data = Some s.
Proof.
  intros H. apply extract_origin in H as [H|[H|H]]; [| |right; exact H];
    left.
  - destruct (regex_or_scanner_origin data s (or_introl H)) as (g & _ & ->).
    apply strip_idem.
  - destruct (regex_or_scanner_origin data s (or_intror H)) as (g & _ & ->).
    apply strip_idem.
Qed.

End WithPlistlib.

Lemma regex_and_scanner_recover_ascii_only_witness :
  extract_text_from_attributed_body Samples.loads_fails MoreSamples.cafe_au_lait
  = Some (Py.u "au lait")
  /\ (Forall (fun n => 0x20 <= n <= 0x7E) (Py.u "au lait")
      \/ structured_archive_decoder Samples.loads_fails MoreSamples.cafe_au_lait
         = Some (Py.u "au lait")).
Proof.
  split; [vm_compute; reflexivity|].
  apply (regex_and_scanner_recover_ascii_only Samples.loads_fails).
  vm_compute. reflexivity.
Defined.

Lemma regex_and_scanner_results_are_trimmed_witness :
  extract_text_from_attributed_body Samples.loads_fails MoreSamples.cafe_au_lait
  = Some (Py.u "au lait")
  /\ (Py.strip (Py.u "au lait") = Py.u "au lait"
      \/ structured_archive_decoder Samples.loads_fails MoreSamples.cafe_au_lait
         = Some (Py.u "au lait")).
Proof.
  split; [vm_compute; reflexivity|].
  apply (regex_and_scanner_results_are_trimmed Samples.loads_fails).
  vm_compute. reflexivity.
Defined.

Lemma marker_then_run_is_recovered_witness :
  extract_text_from_attributed_body Samples.loads_fails
    (Re.NSString ++ MoreSamples.marker_junk ++ MoreSamples.marker_text ++ [])
  = Some (Py.strip (Py.decode_utf8_ignore MoreSamples.marker_text)).
Proof.
  apply (marker_then_run_is_recovered Samples.loads_fails).
  - discriminate.
  - vm_compute. lia.
  - repeat constructor.
  - repeat constructor.
  - vm_compute. lia.
  - reflexivity.
Defined.

Lemma decoder_returns_first_payload_string_witness :
  structured_archive_decoder MoreSamples.loads_keyed_archive
    MoreSamples.signed_buffer = Some (Py.u "On my way")
  /\ (1 < length (Py.u "On my way"))%nat
  /\ ~ In (Py.u "On my way") reserved_names.
Proof.
  split; [vm_compute; reflexivity|].
  destruct (decoder_returns_first_payload_string
              MoreSamples.loads_keyed_archive MoreSamples.signed_buffer
              (Py.u "On my way")) as (_ & Hlen & Hres & _);
    [vm_compute; reflexivity|].
  split; assumption.
Defined.

End ExtractorMore.

(** ** More on the resolver: what it can return *)

Module ResolverMore.

Import Resolver.

Lemma imessage_address_truthy (c : contact) (address : pystr) :
  imessage_address c = Some address -> address <> [].
Proof.
  unfold imessage_address. destruct (py_or _ _) as [phone|]; [|discriminate].
  destruct phone; simpl; [discriminate|]. intros [= <-]. discriminate.
Qed.

(** [phone or email]: the phone when there is one that is not empty. *)
Lemma imessage_address_phone (c : contact) (phone : pystr) :
  imessage_info c !! "phone"%string = Some phone ->
  phone <> [] ->
  imessage_address c = Some phone.
Proof.
  intros Hp Hne. unfold imessage_address, py_or. rewrite Hp.
  destruct phone; [congruence | reflexivity].
Qed.

(** [phone or email]: the email when the phone is missing or empty. *)
Lemma imessage_address_email (c : contact) (email : pystr) :
  imessage_info c !! "phone"%string = None
  \/ imessage_info c !! "phone"%string = Some [] ->
  imessage_info c !! "email"%string = Some email ->
  email <> [] ->
  imessage_address c = Some email.
Proof.
  intros Hp He Hne. unfold imessage_address, py_or.
  destruct Hp as [-> | ->]; simpl; rewrite He;
    (destruct email; [congruence | reflexivity]).
Qed.

Section WithLower.

Variable lower : pystr -> pystr.

Lemma check_name_sound idl c display address :
  check_name lower idl c = Some (display, address) ->
  answers_to lower idl c = true
  /\ imessage_address c = Some address
  /\ display = default [] (name c).
Proof.
  unfold check_name, answers_to.
  destruct (Py.str_eqb idl _); [|discriminate].
  destruct (imessage_address c); [|discriminate].
  intros [= <- <-]. auto.
Qed.

Lemma check_nicknames_sound idl c nicks display address :
  check_nicknames lower idl c nicks = Some (display, address) ->
  existsb (fun nick => Py.str_eqb idl (lower nick)) nicks = true
  /\ imessage_address c = Some address
  /\ exists nick, In nick nicks /\ display = default nick (name c).
Proof.
  induction nicks as [|nick nicks IH]; simpl; [discriminate|].
  destruct (Py.str_eqb idl (lower nick)).
  - destruct (imessage_address c) as [phone|] eqn:Hc.
    + intros [= <- <-]. split; [reflexivity|]. split; [reflexivity|].
      exists nick. auto.
    + intros H. destruct (IH H) as (_ & Ha & _). discriminate Ha.
  - intros H. destruct (IH H) as (He & Ha & nick' & Hin & Hd).
    split; [exact He|]. split; [exact Ha|]. exists nick'. auto.
Qed.

Lemma search_contacts_sound idl contacts display address :
  search_contacts lower idl contacts = Some (display, address) ->
  exists c,
    In c contacts
    /\ answers_to lower idl c = true
    /\ imessage_address c = Some address
    /\ (forall n, name c = Some n -> display = n).
Proof.
  induction contacts as [|c contacts IH]; simpl; [discriminate|].
  destruct (check_name lower idl c) as [[d a]|] eqn:Hn.
  - intros [= -> ->]. apply check_name_sound in Hn as (Ha & Hc & ->).
    exists c. split; [left; reflexivity|]. split; [exact Ha|].
    split; [exact Hc|]. intros n ->. reflexivity.
  - destruct (check_nicknames lower idl c _) as [[d a]|] eqn:Hk.
    + intros [= -> ->].
      apply check_nicknames_sound in Hk as (He & Hc & nick & _ & ->).
      exists c. split; [left; reflexivity|].
      split; [unfold answers_to; rewrite He; apply orb_true_r|].
      split; [exact Hc|]. intros n ->. reflexivity.
    + intros H. destruct (IH H) as (c' & Hin & Hrest).
      exists c'. split; [right; exact Hin | exact Hrest].
Qed.

(** X7: the resolver returns the input twice, or else the address of an
    entry of the directory that answers to the input by its name or by a
    nickname; that address is the entry's iMessage phone or email and is
    not empty, and the display name is the entry's own name when it has
    one, not what was typed. *)
Theorem resolve_returns_input_or_directory_entry
        (identifier : pystr) (contacts : list contact) :
  resolve_contact lower identifier contacts = (identifier, identifier)
  \/ exists c,
       In c contacts
       /\ answers_to lower (lower identifier) c = true
       /\ imessage_address c
          = Some (snd (resolve_contact lower identifier contacts))
       /\ snd (resolve_contact lower identifier contacts) <> []
       /\ (forall n, name c = Some n ->
                     fst (resolve_contact lower identifier contacts) = n).
Proof.
  unfold resolve_contact.
  destruct (_ || _); [left; reflexivity|].
  destruct (search_contacts lower (lower identifier) contacts)
    as [[display address]|] eqn:Hs; [|left; reflexivity].
  right. apply search_contacts_sound in Hs as (c & Hin & Ha & Hc & Hn).
  exists c. simpl. repeat split; try assumption.
  apply (imessage_address_truthy c), Hc.
Qed.

(** X8: in the first entry that answers to the input, a phone that is not
    empty is the address returned, whatever the email is; the email is
    returned when the phone is missing or empty. *)
Theorem phone_is_preferred_to_email
        (identifier : pystr) (pre post : list contact) (c : contact)
        (address : pystr) :
  Py.str_startswith (Py.u "+") identifier
  || Py.str_contains (Py.u "@") identifier = false ->
  Forall (silent lower (lower identifier)) pre ->
  answers_to lower (lower identifier) c = true ->
  address <> [] ->
  imessage_info c !! "phone"%string = Some address
  \/ ((imessage_info c !! "phone"%string = None
       \/ imessage_info c !! "phone"%string = Some [])
      /\ imessage_info c !! "email"%string = Some address) ->
  snd (resolve_contact lower identifier (pre ++ c :: post)) = address.
Proof.
  intros Hcanon Hpre Ha Hne Hinfo.
  assert (Hc : imessage_address c = Some address).
  { destruct Hinfo as [Hp | [Hp He]].
    - apply imessage_address_phone; assumption.
    - apply imessage_address_email; assumption. }
  unfold resolve_contact. rewrite Hcanon.
  rewrite ResolverFacts.search_app, (ResolverFacts.search_silent _ _ _ Hpre).
  destruct (ResolverFacts.search_answering lower _ _ post _ Ha Hc)
    as (d & -> & _).
  reflexivity.
Qed.

End WithLower.

Lemma phone_is_preferred_to_email_witness :
  snd (resolve_contact Py.ascii_lower (Py.u "bob")
         ([Samples.sam_no_address] ++ MoreSamples.robert_with_email
            :: [Samples.sam]))
  = Py.u "+61400000001".
Proof.
  apply (phone_is_preferred_to_email Py.ascii_lower).
  - vm_compute; reflexivity.
  - constructor; [|constructor]. intros H. vm_compute in H. discriminate H.
  - vm_compute; reflexivity.
  - discriminate.
  - left. vm_compute; reflexivity.
Defined.

End ResolverMore.

(** ** More on the engine: what the returned list is *)

Module EngineMore.

Import Sqlite Engine.


Section WithEnvironment.

Variable lower : pystr -> pystr.
Variable plistlib_loads : bytes -> option plist.
Variable sql_datetime : Z -> option pystr.
Variable datetime : Type.
Variable strptime : pystr -> option datetime.
Variable timestamp : datetime -> Z.

Local Abbreviation resolve_text := (Engine.resolve_text plistlib_loads).
Local Abbreviation built_from := (Engine.built_from plistlib_loads).
Local Abbreviation row_loop := (Engine.row_loop lower plistlib_loads).
Local Abbreviation surviving := (Pipeline.surviving lower plistlib_loads).
Local Abbreviation since_bound := (Engine.since_bound datetime strptime timestamp).
Local Abbreviation get_messages :=
  (Engine.get_messages lower plistlib_loads sql_datetime datetime strptime
                       timestamp).
Local Abbreviation select_messages := (Sqlite.select_messages sql_datetime).
Local Abbreviation open_cursor := (Sqlite.open_cursor sql_datetime).

(** Every row of the result set is a row of the table that passes the
    [WHERE] clause. *)
Lemma select_messages_In tbl contact_id since limit r :
  In r (select_messages tbl contact_id since limit) ->
  exists m, In m tbl
            /\ where_clause contact_id since m = true
            /\ r = select_columns sql_datetime m.
Proof.
  unfold Sqlite.select_messages. intros H.
  apply in_map_iff in H as (m & <- & Hm).
  exists m. split; [|split; [|reflexivity]].
  - apply list_elem_of_In in Hm.
    eapply elem_of_sublist in Hm; [|apply EngineFacts.sql_limit_sublist].
    rewrite merge_sort_Permutation in Hm.
    apply list_elem_of_In, filter_In in Hm. apply Hm.
  - apply list_elem_of_In in Hm.
    eapply elem_of_sublist in Hm; [|apply EngineFacts.sql_limit_sublist].
    rewrite merge_sort_Permutation in Hm.
    apply list_elem_of_In, filter_In in Hm. apply Hm.
Qed.



(** The loop on a cursor that does not raise: the messages it had and the
    first messages of the rows, up to the limit. *)
Lemma row_loop_take limit keyword rs acc :
  (Z.of_nat (length acc) < limit)%Z ->
  row_loop limit keyword rs None acc
  = Return (acc ++ take (Z.to_nat limit - length acc)
                        (omap (surviving keyword) rs)).
Proof.
  revert acc. induction rs as [|r rs IH]; intros acc Hacc;
    cbn [Engine.row_loop].
  - simpl. rewrite take_nil, app_nil_r. reflexivity.
  - change (omap (surviving keyword) (r :: rs))
      with (match surviving keyword r with
            | Some m => m :: omap (surviving keyword) rs
            | None => omap (surviving keyword) rs
            end).
    unfold Pipeline.surviving at 1.
    destruct (resolve_text r) as [text|]; [|apply IH, Hacc].
    destruct (blank (Some text)); [apply IH, Hacc|].
    cbn [orb].
    destruct (keyword_rejects lower keyword text); [apply IH, Hacc|].
    destruct (limit <=? _)%Z eqn:Hl.
    + apply Z.leb_le in Hl. rewrite length_app in Hl. simpl in Hl.
      replace (Z.to_nat limit - length acc)%nat with 1%nat by lia.
      simpl. rewrite take_0. reflexivity.
    + apply Z.leb_gt in Hl. rewrite IH by exact Hl.
      rewrite length_app in *. simpl in *.
      replace (Z.to_nat limit - length acc)%nat
        with (S (Z.to_nat limit - (length acc + 1)))%nat by lia.
      simpl. rewrite <- app_assoc. reflexivity.
Qed.

(** The loop on any cursor: it stops as soon as it has [limit]
    messages, and only a cursor that gives fewer is read to its end or to
    its exception. *)
Lemma row_loop_first_surviving limit keyword rs failure acc :
  (Z.of_nat (length acc) < limit)%Z ->
  row_loop limit keyword rs failure acc
  = if (Z.to_nat limit - length acc
        <=? length (omap (surviving keyword) rs))%nat
    then Return (acc ++ take (Z.to_nat limit - length acc)
                             (omap (surviving keyword) rs))
    else match failure with
         | Some e => Raise e
         | None => Return (acc ++ omap (surviving keyword) rs)
         end.
Proof.
  revert acc. induction rs as [|r rs IH]; intros acc Hacc;
    cbn [Engine.row_loop].
  - change (omap (surviving keyword) []) with (@nil message).
    destruct (Nat.leb_spec (Z.to_nat limit - length acc) (length (@nil message)));
      [simpl in *; lia|].
    rewrite app_nil_r. destruct failure; reflexivity.
  - change (omap (surviving keyword) (r :: rs))
      with (match surviving keyword r with
            | Some m => m :: omap (surviving keyword) rs
            | None => omap (surviving keyword) rs
            end).
    remember (surviving keyword r) as sr eqn:Hs.
    unfold Pipeline.surviving in Hs.
    destruct (resolve_text r) as [text|] eqn:Ht;
      [|subst sr; apply IH, Hacc].
    destruct (blank (Some text)) eqn:Hb; [subst sr; apply IH, Hacc|].
    cbn [orb] in Hs.
    destruct (keyword_rejects lower keyword text) eqn:Hk;
      [subst sr; apply IH, Hacc|].
    subst sr.
    destruct (limit <=? _)%Z eqn:Hl.
    + apply Z.leb_le in Hl. rewrite length_app in Hl. simpl in Hl.
      replace (Z.to_nat limit - length acc)%nat with 1%nat by lia.
      simpl. rewrite take_0. reflexivity.
    + apply Z.leb_gt in Hl. rewrite IH by exact Hl.
      rewrite length_app in *. simpl in *.
      replace (Z.to_nat limit - length acc)%nat
        with (S (Z.to_nat limit - (length acc + 1)))%nat by lia.
      simpl. rewrite <- !app_assoc. reflexivity.
Qed.

(** X10: for a limit of one or more, the loop over the rows of a cursor
    returns the first [limit] messages that the rows give, in the order of
    the cursor, a row giving a message when its text resolves, is not
    blank and holds the keyword; it stops there, so that an exception the
    cursor would raise further on is not met. When the rows give fewer
    messages, it returns them all if the cursor ends and raises the
    exception of the cursor if it does not. *)
Theorem loop_returns_first_surviving_rows limit keyword rs failure :
  (1 <= limit)%Z ->
  row_loop limit keyword rs failure []
  = if (Z.to_nat limit <=? length (omap (surviving keyword) rs))%nat
    then Return (take (Z.to_nat limit) (omap (surviving keyword) rs))
    else match failure with
         | Some e => Raise e
         | None => Return (omap (surviving keyword) rs)
         end.
Proof.
  intros Hlimit.
  rewrite row_loop_first_surviving by (simpl; lia).
  simpl. rewrite Nat.sub_0_r. reflexivity.
Qed.

(** X11: an empty keyword and an empty [since] are no keyword and no
    [since]. *)
Theorem empty_filters_are_no_filters st contact_id limit tr :
  get_messages st contact_id limit (Some []) (Some []) tr
  = get_messages st contact_id limit None None tr.
Proof.
  unfold Engine.get_messages. simpl Engine.since_bound.
  assert (Hloop : forall rs failure acc,
             row_loop limit (Some []) rs failure acc
             = row_loop limit None rs failure acc).
  { induction rs as [|r rs IH]; intros failure acc; cbn [Engine.row_loop];
      [reflexivity|].
    destruct (resolve_text r) as [text|]; [|apply IH].
    destruct (blank (Some text)); [apply IH|].
    cbn [keyword_rejects Py.truthy andb]. rewrite IH. reflexivity. }
  unfold bind. destruct (connect st tr) as [[[]|e] tr1]; [|reflexivity].
  destruct (execute_query _ _ _ _ _ tr1) as [[cur|e] tr2]; [|reflexivity].
  unfold lift. rewrite Hloop. reflexivity.
Qed.

End WithEnvironment.


Lemma loop_returns_first_surviving_rows_witness :
  Engine.row_loop Py.ascii_lower Samples.loads_fails 1 None
    (rows (open_cursor Samples.no_date Samples.failing_cursor_store
             Samples.peer None 2))
    (Some OperationalError) []
  = Return (take 1 (map (fun r => make_message r (default [] (text r)))
                        (rows (open_cursor Samples.no_date
                                 Samples.failing_cursor_store Samples.peer
                                 None 2)))).
Proof.
  rewrite (loop_returns_first_surviving_rows Py.ascii_lower
             Samples.loads_fails 1 None) by lia.
  vm_compute. reflexivity.
Defined.

(** X12: the guard returns [True] exactly when looking for the file
    raises nothing, the file is there, and neither [connect] nor the probe
    raises. What it raises is what looking for the file raised, or else
    what [connect] or the probe raised when that is neither an
    [OperationalError] nor a [DatabaseError]: these two it turns into
    [False]. *)
Theorem guard_is_true_iff_store_readable (st : store) (tr : trace) :
  (fst (check_fda_access st tr) = Return true
   <-> exists_error st = None
       /\ file_exists st = true
       /\ connect_error st = None /\ execute_error st = None)
  /\ (forall e, fst (check_fda_access st tr) = Raise e ->
                exists_error st = Some e
                \/ (exists_error st = None
                    /\ is_database_error e = false
                    /\ (connect_error st = Some e
                        \/ execute_error st = Some e))).
Proof.
  unfold check_fda_access, path_exists, try_except, bind, connect,
    execute_probe, close, log, ret, raise.
  destruct (exists_error st) as [e0|]; simpl.
  { split; [split; [discriminate | intros [? _]; discriminate]|].
    intros e [= <-]. auto. }
  destruct (file_exists st); simpl.
  2:{ split; [split; [discriminate | intros (_ & ? & _); discriminate]|].
      intros e; discriminate. }
  destruct (connect_error st) as [e1|]; simpl.
  { destruct (is_database_error e1) eqn:E1; simpl.
    - split; [split; [discriminate | intros (_ & _ & ? & _); discriminate]|].
      intros e; discriminate.
    - split; [split; [discriminate | intros (_ & _ & ? & _); discriminate]|].
      intros e [= <-]. auto. }
  destruct (execute_error st) as [e2|]; simpl.
  { destruct (is_database_error e2) eqn:E2; simpl.
    - split; [split; [discriminate | intros (_ & _ & _ & ?); discriminate]|].
      intros e; discriminate.
    - split; [split; [discriminate | intros (_ & _ & _ & ?); discriminate]|].
      intros e [= <-]. auto 6. }
  split; [split; auto|]. intros e; discriminate.
Qed.

(** A directory that cannot be searched: the guard raises before it tries
    to connect. *)
Example guard_raises_on_unsearchable_directory :
  check_fda_access
    {| exists_error := Some PermissionError;
       file_exists := false;
       connect_error := None;
       execute_error := None;
       fetch_error := None;
       table := [] |} []
  = (Raise PermissionError, []).
Proof. reflexivity. Qed.

End EngineMore.

(** ** The thread that is printed *)

Module OutputFacts.

Import Engine Output.

Lemma count_app (s t : pystr) :
  count_newlines (s ++ t) = (count_newlines s + count_newlines t)%nat.
Proof. unfold count_newlines. rewrite List.filter_app, length_app. reflexivity. Qed.

Lemma count_replace (text : pystr) : count_newlines (replace_newlines text) = 0%nat.
Proof.
  induction text as [|c text IH]; [reflexivity|].
  unfold replace_newlines in *. cbn [flat_map]. rewrite count_app, IH.
  destruct (c =? 0x0A) eqn:E; [reflexivity|].
  unfold count_newlines. simpl. rewrite E. reflexivity.
Qed.

Lemma count_digits (s : pystr) :
  Forall (fun c => 48 <= c <= 57) s -> count_newlines s = 0%nat.
Proof.
  induction 1 as [|c s Hc _ IH]; [reflexivity|].
  unfold count_newlines in *. simpl.
  destruct (N.eqb_spec c 0x0A); [lia | exact IH].
Qed.

Lemma string_of_uint_digits (d : Decimal.uint) :
  Forall (fun c => 48 <= c <= 57) (Py.u (NilEmpty.string_of_uint d)).
Proof.
  unfold Py.u, list_byte_of_string.
  induction d; simpl; constructor; (lia || assumption).
Qed.

(** [str(n)] is made of digits. *)
Lemma str_of_nat_digits (n : nat) :
  Forall (fun c => 48 <= c <= 57) (str_of_nat n).
Proof.
  unfold str_of_nat, NilZero.string_of_uint.
  destruct (Nat.to_uint n) eqn:E; try (rewrite <- E; apply string_of_uint_digits).
  change (Py.u "0") with [48]. repeat constructor; lia.
Qed.

Lemma count_join (lines : list pystr) :
  count_newlines (join newline lines)
  = (list_sum (map count_newlines lines) + (length lines - 1))%nat.
Proof.
  induction lines as [|line lines IH]; [reflexivity|].
  destruct lines as [|line' lines].
  - simpl. lia.
  - change (join newline (line :: line' :: lines))
      with (line ++ newline ++ join newline (line' :: lines)).
    rewrite !count_app, IH. change (count_newlines newline) with 1%nat.
    simpl. lia.
Qed.

Lemma count_format_line (contact_name : pystr) (m : message) :
  count_newlines contact_name = 0%nat ->
  count_newlines (fmt_optional (msg_date m)) = 0%nat ->
  count_newlines (format_line contact_name m) = 0%nat.
Proof.
  intros Hn Hd. unfold format_line. cbv zeta.
  rewrite !count_app, Hd, count_replace.
  destruct (msg_is_from_me m); [reflexivity | rewrite Hn; reflexivity].
Qed.

Lemma count_format_lines (contact_name : pystr) (messages : list message) :
  count_newlines contact_name = 0%nat ->
  Forall (fun m => count_newlines (fmt_optional (msg_date m)) = 0%nat)
         messages ->
  list_sum (map count_newlines (map (format_line contact_name) messages))
  = 0%nat.
Proof.
  intros Hn. induction 1 as [|m messages Hm _ IH]; [reflexivity|].
  simpl. rewrite (count_format_line _ _ Hn Hm), IH. reflexivity.
Qed.

Lemma thread_lines
      (messages : list message) (contact_name contact_id : pystr) :
  count_newlines contact_name = 0%nat ->
  count_newlines contact_id = 0%nat ->
  Forall (fun m => count_newlines (fmt_optional (msg_date m)) = 0%nat)
         messages ->
  count_newlines (format_output messages contact_name contact_id)
  = match messages with
    | [] => 0%nat
    | _ => (length messages + 2)%nat
    end.
Proof.
  intros Hn Hi Hd. unfold format_output.
  destruct messages as [|m messages].
  - rewrite !count_app, Hn, Hi. reflexivity.
  - cbv zeta. rewrite count_join.
    cbn [app map list_sum]. rewrite !count_app, Hn, Hi.
    rewrite (count_digits _ (str_of_nat_digits _)).
    pose proof (count_format_lines contact_name (m :: messages) Hn Hd) as Hl.
    cbn [map list_sum] in Hl.
    change (count_newlines []) with 0%nat.
    change (count_newlines (Py.u "Conversation with ")) with 0%nat.
    change (count_newlines (Py.u " (")) with 0%nat.
    change (count_newlines (Py.u ") via iMessage")) with 0%nat.
    change (count_newlines (Py.u "Showing ")) with 0%nat.
    change (count_newlines (Py.u " messages (most recent first):")) with 0%nat.
    cbn [length]. rewrite length_map.
    unfold list_sum in *. cbn [fold_right] in *. lia.
Qed.

(** X14: when the name, the address and the dates hold no newline, the
    thread has one line for each message after its three header lines,
    however many lines the text of a message has; with no message it is a
    single line. *)
Theorem thread_has_one_line_per_message
        (messages : list message) (contact_name contact_id : pystr) :
  count_newlines contact_name = 0%nat ->
  count_newlines contact_id = 0%nat ->
  Forall (fun m => count_newlines (fmt_optional (msg_date m)) = 0%nat)
         messages ->
  count_newlines (format_output messages contact_name contact_id)
  = match messages with
    | [] => 0%nat
    | _ => (length messages + 2)%nat
    end.
Proof. apply thread_lines. Qed.

Lemma thread_has_one_line_per_message_witness :
  count_newlines
    (format_output MoreSamples.two_line_message (Py.u "James")
                   (Py.u "+61400000000"))
  = (length MoreSamples.two_line_message + 2)%nat.
Proof.
  apply (thread_has_one_line_per_message MoreSamples.two_line_message
           (Py.u "James") (Py.u "+61400000000")).
  - reflexivity.
  - reflexivity.
  - repeat constructor.
Defined.

(** The thread of the scenario, as the source prints it. *)
Example thread_of_the_scenario :
  format_output MoreSamples.two_line_message (Py.u "James")
                (Py.u "+61400000000")
  = Py.u "Conversation with James (+61400000000) via iMessage"
    ++ newline ++ Py.u "Showing 2 messages (most recent first):"
    ++ newline ++ newline
    ++ Py.u "[2025-12-26 21:38:00] Me: see you" ++ [0x20; 0x21B5; 0x20]
    ++ Py.u "then" ++ newline ++ Py.u "[None] James: ok".
Proof. vm_compute. reflexivity. Qed.

End OutputFacts.

(** ** The command: guard, resolver, engine and thread together *)

Module MainFacts.

Import Sqlite Engine Main.

Lemma guard_true_trace (st : store) (tr tr1 : trace) :
  check_fda_access st tr = (Return true, tr1) -> tr1 = tr ++ [Opened; Closed].
Proof.
  unfold check_fda_access, path_exists, try_except, bind, connect,
    execute_probe, close, log, ret, raise.
  destruct (exists_error st); [discriminate|].
  destruct (file_exists st); simpl; [|discriminate].
  destruct (connect_error st) as [e1|]; simpl;
    [destruct (is_database_error e1); discriminate|].
  destruct (execute_error st) as [e2|]; simpl;
    [destruct (is_database_error e2); discriminate|].
  intros [= <-]. rewrite <- app_assoc. reflexivity.
Qed.

Section WithEnvironment.

Variable lower : pystr -> pystr.
Variable plistlib_loads : bytes -> option plist.
Variable sql_datetime : Z -> option pystr.
Variable datetime : Type.
Variable strptime : pystr -> option datetime.
Variable timestamp : datetime -> Z.
Variable json_dumps : pystr -> pystr -> nat -> list message -> pystr.

Local Abbreviation get_messages :=
  (Engine.get_messages lower plistlib_loads sql_datetime datetime strptime
                       timestamp).
Local Abbreviation main_with :=
  (fun load_contacts =>
     Main.main lower plistlib_loads sql_datetime datetime strptime timestamp
               load_contacts json_dumps).

(** The two ways [main] returns. *)
Lemma main_returns load_contacts args st tr code printed tr' :
  main_with load_contacts args st tr = (Return (code, printed), tr') ->
  (code = 1%Z
   /\ printed = map (pair Stderr) access_denied
   /\ check_fda_access st tr = (Return false, tr'))
  \/ (code = 0%Z
      /\ exists tr1 messages,
           check_fda_access st tr = (Return true, tr1)
           /\ get_messages st
                (snd (Resolver.resolve_contact lower (contact args)
                        (load_contacts (contacts_file args))))
                (recent args) (keyword args) (since args) tr1
              = (Return messages, tr')
           /\ printed
              = [ (Stdout,
                   if json args
                   then json_dumps
                          (fst (Resolver.resolve_contact lower (contact args)
                                  (load_contacts (contacts_file args))))
                          (snd (Resolver.resolve_contact lower (contact args)
                                  (load_contacts (contacts_file args))))
                          (length messages) messages
                   else Output.format_output messages
                          (fst (Resolver.resolve_contact lower (contact args)
                                  (load_contacts (contacts_file args))))
                          (snd (Resolver.resolve_contact lower (contact args)
                                  (load_contacts (contacts_file args))))) ]).
Proof.
  unfold Main.main, bind.
  destruct (check_fda_access st tr) as [[[|]|e] tr1] eqn:Hg; simpl;
    [| |discriminate].
  - destruct (Engine.get_messages _ _ _ _ _ _ _ _ _ _ _ tr1)
      as [[messages|e] tr2] eqn:Hq; [|discriminate].
    unfold ret. intros [= <- <- <-]. right. split; [reflexivity|].
    exists tr1, messages. auto.
  - unfold ret. intros [= <- <- <-]. left. auto.
Qed.

(** X15: [main] returns 1 only when the guard has returned [False], and
    then prints the seven lines of the access message on the error stream,
    nothing on the output, and runs no query; it returns 0 only after the
    guard has returned [True] and the query its list, prints one thing on
    the output, and has then opened and closed two connections, one after
    the other. It returns no other status. *)
Theorem main_exit_status load_contacts args st tr code printed tr' :
  main_with load_contacts args st tr = (Return (code, printed), tr') ->
  (code = 1%Z
   /\ printed = map (pair Stderr) access_denied
   /\ fst (check_fda_access st tr) = Return false
   /\ tr' = snd (check_fda_access st tr))
  \/ (code = 0%Z
      /\ (exists out, printed = [(Stdout, out)])
      /\ fst (check_fda_access st tr) = Return true
      /\ tr' = tr ++ [Opened; Closed; Opened; Closed]).
Proof.
  intros H. apply main_returns in H
    as [(-> & -> & Hg) | (-> & tr1 & messages & Hg & Hq & ->)].
  - left. rewrite Hg. auto.
  - right. split; [reflexivity|]. split; [eauto|]. rewrite Hg.
    split; [reflexivity|].
    apply guard_true_trace in Hg as ->.
    apply EngineFacts.get_messages_returns in Hq as [_ ->].
    rewrite <- app_assoc. reflexivity.
Qed.

(** X16: an identifier that starts with [+] or holds an [@] is queried
    as it is: [main] does what it does with an empty directory, whatever
    the contacts file holds. *)
Theorem main_queries_an_address_as_given load_contacts args st tr :
  Py.str_startswith (Py.u "+") (contact args)
  || Py.str_contains (Py.u "@") (contact args) = true ->
  main_with load_contacts args st tr = main_with (fun _ => []) args st tr.
Proof.
  intros Hcanon. unfold Main.main, Resolver.resolve_contact.
  rewrite Hcanon. reflexivity.
Qed.

(** X17: in text mode and for a limit that is not negative, when the
    resolved name and address and the dates that SQLite prints hold no
    newline, what [main] prints on success has at most [recent + 2]
    newlines: the three header lines and one line for each message, of
    which there are [recent] at most. *)
Theorem main_prints_at_most_recent_messages
        load_contacts args st tr printed tr' :
  json args = false ->
  (0 <= recent args)%Z ->
  Output.count_newlines
    (fst (Resolver.resolve_contact lower (contact args)
            (load_contacts (contacts_file args)))) = 0%nat ->
  Output.count_newlines
    (snd (Resolver.resolve_contact lower (contact args)
            (load_contacts (contacts_file args)))) = 0%nat ->
  (forall t s, sql_datetime t = Some s -> Output.count_newlines s = 0%nat) ->
  main_with load_contacts args st tr = (Return (0%Z, printed), tr') ->
  exists out,
    printed = [(Stdout, out)]
    /\ (Z.of_nat (Output.count_newlines out) <= recent args + 2)%Z.
Proof.
  intros Hjson Hrecent Hname Hid Hdates H.
  apply main_returns in H
    as [(Hcode & _) | (_ & tr1 & messages & _ & Hq & ->)]; [discriminate|].
  rewrite Hjson. eexists. split; [reflexivity|].
  apply EngineFacts.get_messages_returns in Hq as [Hloop _].
  pose proof (EngineFacts.row_loop_length _ _ _ _ _ _ _ _ Hloop) as Hlen.
  pose proof (sublist_length _ _
                (EngineFacts.open_cursor_rows sql_datetime st
                   (snd (Resolver.resolve_contact lower (contact args)
                           (load_contacts (contacts_file args))))
                   (Engine.since_bound datetime strptime timestamp (since args))
                   (recent args * 2))) as Hrows.
  pose proof (EngineFacts.select_messages_length sql_datetime (table st)
                (snd (Resolver.resolve_contact lower (contact args)
                        (load_contacts (contacts_file args))))
                (Engine.since_bound datetime strptime timestamp (since args))
                (recent args * 2) ltac:(lia)) as Hset.
  assert (Hcount : (Z.of_nat (length messages) <= recent args)%Z).
  { destruct (rows _) as [|r rs]; simpl in *; lia. }
  apply EngineFacts.row_loop_returns in Hloop
    as (kept & new & -> & Hsub & Hall).
  rewrite app_nil_l in *.
  rewrite OutputFacts.thread_lines; [destruct new; simpl in *; lia | assumption
                                    | assumption |].
  assert (Hkept : Forall (fun r => Output.count_newlines
                                     (Output.fmt_optional (formatted_date r))
                                   = 0%nat) kept).
  { apply Forall_forall. intros r Hr.
    eapply elem_of_sublist in Hr; [|exact Hsub].
    eapply elem_of_sublist in Hr; [|apply EngineFacts.open_cursor_rows].
    apply list_elem_of_In, EngineMore.select_messages_In in Hr
      as (m & _ & _ & ->).
    simpl. destruct (sql_datetime _) as [s|] eqn:E; simpl;
      [apply (Hdates _ _ E) | reflexivity]. }
  clear Hsub Hcount Hlen. induction Hall as [|r m kept new [(_ & _ & Hm) _] _ IH];
    [constructor|].
  apply Forall_cons in Hkept as [Hr Hkept].
  constructor; [|apply IH, Hkept]. rewrite Hm. simpl. exact Hr.
Qed.

End WithEnvironment.

Lemma main_exit_status_witness :
  (0%Z = 1%Z
   /\ MoreSamples.printed_thread = map (pair Stderr) access_denied
   /\ fst (check_fda_access Samples.scenario_store []) = Return false
   /\ [Opened; Closed; Opened; Closed]
      = snd (check_fda_access Samples.scenario_store []))
  \/ (0%Z = 0%Z
      /\ (exists out, MoreSamples.printed_thread = [(Stdout, out)])
      /\ fst (check_fda_access Samples.scenario_store []) = Return true
      /\ [Opened; Closed; Opened; Closed]
         = [] ++ [Opened; Closed; Opened; Closed]).
Proof.
  apply (main_exit_status Py.ascii_lower Samples.loads_fails Samples.no_date Z
           Samples.strptime_rejects Samples.seconds MoreSamples.json_dumps
           MoreSamples.load_contacts MoreSamples.args_peer
           Samples.scenario_store []).
  vm_compute. reflexivity.
Defined.

Lemma main_queries_an_address_as_given_witness :
  MoreSamples.main MoreSamples.load_contacts MoreSamples.json_dumps
                   MoreSamples.args_peer Samples.scenario_store []
  = MoreSamples.main (fun _ => []) MoreSamples.json_dumps
                     MoreSamples.args_peer Samples.scenario_store [].
Proof.
  apply (main_queries_an_address_as_given Py.ascii_lower Samples.loads_fails
           Samples.no_date Z Samples.strptime_rejects Samples.seconds
           MoreSamples.json_dumps MoreSamples.load_contacts
           MoreSamples.args_peer Samples.scenario_store []).
  vm_compute. reflexivity.
Defined.

Lemma main_prints_at_most_recent_messages_witness :
  exists out,
    MoreSamples.printed_thread = [(Stdout, out)]
    /\ (Z.of_nat (Output.count_newlines out)
        <= recent MoreSamples.args_peer + 2)%Z.
Proof.
  apply (main_prints_at_most_recent_messages Py.ascii_lower
           Samples.loads_fails Samples.no_date Z Samples.strptime_rejects
           Samples.seconds MoreSamples.json_dumps MoreSamples.load_contacts
           MoreSamples.args_peer Samples.scenario_store []
           MoreSamples.printed_thread [Opened; Closed; Opened; Closed]).
  - reflexivity.
  - vm_compute. discriminate.
  - vm_compute. reflexivity.
  - vm_compute. reflexivity.
  - intros t s H. discriminate H.
  - vm_compute. reflexivity.
Defined.

(** What is printed for the scenario: the thread of its two most recent
    messages. *)
Example printed_thread_of_the_scenario :
  MoreSamples.printed_thread
  = [(Stdout,
      Output.format_output Samples.two_latest Samples.peer Samples.peer)].
Proof. vm_compute. reflexivity. Qed.

End MainFacts.

(** ** The resolver on entries that hold a null *)

Module YamlFacts.

Import Yaml.

(** C10 (evaluation at the failing input): the entry that [add-contact.py]
    writes for a contact with an e-mail only has the name "Sam" and a
    [platforms] key with nothing under it. It matches "sam" and has no
    iMessage phone or email, yet it is not passed over: [None.get] raises,
    and the entry after it, which has "Sam" as a nickname and a phone, is
    never tried. Without its [platforms] key the same entry is passed
    over. *)
Theorem null_platforms_entry_raises :
  resolve_contact Py.ascii_lower (Py.u "sam")
                  [YamlSamples.sam_email_only; YamlSamples.robert_sam]
  = Raise AttributeError
  /\ resolve_contact Py.ascii_lower (Py.u "sam")
                     [YamlSamples.sam_no_platforms; YamlSamples.robert_sam]
     = Return (Str (Py.u "Robert Sam"), Str (Py.u "+61400000001"))
  /\ resolve_contact Py.ascii_lower (Py.u "sam") [YamlSamples.sam_email_only]
     = Raise AttributeError
  /\ resolve_contact Py.ascii_lower (Py.u "sam") [YamlSamples.sam_no_platforms]
     = Return (Str (Py.u "sam"), Str (Py.u "sam")).
Proof. repeat split; vm_compute; reflexivity. Qed.

(** *** The entries of [Resolver.contact] *)









Section WithLower.

Variable lower : pystr -> pystr.





End WithLower.

End YamlFacts.
